(** * cryptfs_hw: hardware disk-encryption key gateway

    A shallow embedding of [cryptfs_hw/cryptfs_hw.c] and the properties
    of its key operations.

    The C code talks to the outside world all the time: the property
    store, the filesystem, the dynamic loader, the allocator, the
    QSEECom entry points and the hardware module registry.  All of these
    are gathered in a [world] of oracles; every answer may depend on the
    whole history of the process so far (the [trace]), so nothing is
    assumed about them.  The program itself is a state-and-fault monad
    over the C globals, the heap of [malloc]ed blocks and that trace. *)

From Stdlib Require Import ZArith String Ascii.
From stdpp Require Import base tactics option list.

Local Open Scope string_scope.
Local Open Scope list_scope.
Local Open Scope Z_scope.

(** ** C strings

    A [const char*] argument is modelled by the characters stored at the
    pointer (a Rocq [string]), with the terminating NUL implicit at the
    end; the libc functions below stop at the first NUL as the C ones do,
    so a string carrying an embedded NUL behaves like its C prefix. *)

Definition NUL : ascii := Ascii.zero.

Definition uchar (c : ascii) : Z := Z.of_N (N_of_ascii c).

(** The characters of a C string: everything before the first NUL. *)
Fixpoint c_str (s : string) : string :=
  match s with
  | EmptyString => EmptyString
  | String c s' => if ascii_dec c NUL then EmptyString else String c (c_str s')
  end.

(** The bytes of the object a C string pointer refers to. *)
Definition c_mem (s : string) : list ascii :=
  list_ascii_of_string s ++ [NUL].

Fixpoint strnlen (s : string) (maxlen : nat) {struct maxlen} : nat :=
  match maxlen, s with
  | O, _ => O
  | S _, EmptyString => O
  | S m, String c s' => if ascii_dec c NUL then O else S (strnlen s' m)
  end.

Fixpoint strcmp (a b : string) : Z :=
  match a, b with
  | EmptyString, EmptyString => 0
  | EmptyString, String d _ => 0 - uchar d
  | String c _, EmptyString => uchar c
  | String c a', String d b' =>
      if ascii_dec c d
      then (if ascii_dec c NUL then 0 else strcmp a' b')
      else uchar c - uchar d
  end.

Fixpoint strncmp (a b : string) (n : nat) {struct n} : Z :=
  match n with
  | O => 0
  | S n' =>
      match a, b with
      | EmptyString, EmptyString => 0
      | EmptyString, String d _ => 0 - uchar d
      | String c _, EmptyString => uchar c
      | String c a', String d b' =>
          if ascii_dec c d
          then (if ascii_dec c NUL then 0 else strncmp a' b' n')
          else uchar c - uchar d
      end
  end.

(** [starts_with needle hay]: the C string [needle] occurs at the very
    start of the C string [hay]. *)
Fixpoint starts_with (needle hay : string) : bool :=
  match needle with
  | EmptyString => true
  | String c n' =>
      if ascii_dec c NUL then true else
      match hay with
      | EmptyString => false
      | String d h' => if ascii_dec c d then starts_with n' h' else false
      end
  end.

(** [strstr] returns the offset of the first occurrence (the C function
    returns the pointer [haystack + offset]), or [None] for NULL. *)
Fixpoint strstr (haystack needle : string) : option nat :=
  if starts_with needle haystack then Some O else
  match haystack with
  | EmptyString => None
  | String d h' =>
      if ascii_dec d NUL then None else option_map S (strstr h' needle)
  end.

(** ** Constants of the translation unit *)

Definition QSEECOM_LIBRARY_NAME : string := "libQSEEComAPI.so".

Definition ERR_MAX_PASSWORD_ATTEMPTS : Z := -10.
Definition MAX_PASSWORD_LEN : nat := 32.
Definition QTI_ICE_STORAGE_UFS : Z := 1.
Definition QTI_ICE_STORAGE_SDCC : Z := 2.
Definition SET_HW_DISK_ENC_KEY : Z := 1.
Definition UPDATE_HW_DISK_ENC_KEY : Z := 2.

Definition CRYPTFS_HW_UP_CHECK_COUNT : nat := 100.
Definition CRYPTFS_HW_UPDATE_KEY_FAILED : Z := -9.
Definition CRYPTFS_HW_WIPE_KEY_FAILED : Z := -8.
Definition CRYPTFS_HW_CREATE_KEY_FAILED : Z := -7.

Definition METADATA_PARTITION_NAME : string :=
  "/dev/block/bootdevice/by-name/metadata".

(** [enum cryptfs_hw_key_management_usage_type]; the functions take and
    return it as [int]. *)
Definition CRYPTFS_HW_KM_USAGE_DISK_ENCRYPTION : Z := 1.
Definition CRYPTFS_HW_KM_USAGE_FILE_ENCRYPTION : Z := 2.
Definition CRYPTFS_HW_KM_USAGE_UFS_ICE_DISK_ENCRYPTION : Z := 3.
Definition CRYPTFS_HW_KM_USAGE_SDCC_ICE_DISK_ENCRYPTION : Z := 4.

(** ** [is_hw_disk_encryption] *)

Definition is_hw_disk_encryption (encryption_mode : option string) : Z :=
  match encryption_mode with
  | Some mode => if strcmp mode "aes-xts" =? 0 then 1 else 0
  | None => 0
  end.

(** ** The outside world *)

(** What [dlsym] followed by [dlerror] can report for a symbol: its
    address, or an error message (and then [dlsym] returned NULL). *)
Inductive dl_result :=
| DlFound (addr : N)
| DlError (msg : string).

(** The one field of [hw_module_t] the code reads. *)
Record hw_module_t := { module_api_version : Z }.

(** Everything the process does to the outside world, newest first. *)
Inductive event :=
| EvPropertyGet (key value : string)
| EvUsleep (usec : Z)
| EvAccess (path : string) (rc : Z)
| EvDlopen (name : string) (handle : option N)
| EvDlsym (handle : N) (symbol : string) (r : dl_result)
| EvDlclose (handle : N)
| EvMalloc (size : nat) (p : option nat)
| EvFree (p : nat)
| EvCall (fn : N) (usage : Z) (bufs : list (list ascii)) (status : Z)
| EvHwGetModule (id : string) (rc : Z).

Record world := {
  (* the property store: the value of a key, if it is set *)
  w_property : list event -> string -> option string;
  (* does access(path, F_OK) find the path *)
  w_exists : list event -> string -> bool;
  w_dlopen : list event -> string -> option N;
  w_dlsym : list event -> N -> string -> dl_result;
  (* malloc: out of memory, or the indeterminate bytes of the new block *)
  w_malloc : list event -> nat -> option (nat -> ascii);
  (* the status returned by the code at an address of the loaded library,
     called with a usage tag and the contents of its buffer arguments *)
  w_call : list event -> N -> Z -> list (list ascii) -> Z;
  (* hw_get_module_by_class: return code and the module it points to *)
  w_hw_get_module_by_class : list event -> string -> Z * hw_module_t;
}.

(** ** Program state *)

(** A [malloc]ed block; [free] leaves the bytes where they are. *)
Record block := Block { data : list ascii; live : bool }.

Record state := State {
  loaded_library : Z;
  qseecom_create_key : option N;
  qseecom_update_key : option N;
  qseecom_wipe_key : option N;
  (* the message the next dlerror() will return *)
  dl_pending : option string;
  heap : list block;
  trace : list event;
}.

Definition set_loaded_library (v : Z) (st : state) : state :=
  State v (qseecom_create_key st) (qseecom_update_key st)
        (qseecom_wipe_key st) (dl_pending st) (heap st) (trace st).
Definition set_qseecom_create_key (f : option N) (st : state) : state :=
  State (loaded_library st) f (qseecom_update_key st)
        (qseecom_wipe_key st) (dl_pending st) (heap st) (trace st).
Definition set_qseecom_update_key (f : option N) (st : state) : state :=
  State (loaded_library st) (qseecom_create_key st) f
        (qseecom_wipe_key st) (dl_pending st) (heap st) (trace st).
Definition set_qseecom_wipe_key (f : option N) (st : state) : state :=
  State (loaded_library st) (qseecom_create_key st) (qseecom_update_key st)
        f (dl_pending st) (heap st) (trace st).
Definition set_dl_pending (e : option string) (st : state) : state :=
  State (loaded_library st) (qseecom_create_key st) (qseecom_update_key st)
        (qseecom_wipe_key st) e (heap st) (trace st).
Definition set_heap (h : list block) (st : state) : state :=
  State (loaded_library st) (qseecom_create_key st) (qseecom_update_key st)
        (qseecom_wipe_key st) (dl_pending st) h (trace st).
Definition log (e : event) (st : state) : state :=
  State (loaded_library st) (qseecom_create_key st) (qseecom_update_key st)
        (qseecom_wipe_key st) (dl_pending st) (heap st) (e :: trace st).

(** The state at process start: [static int loaded_library = 0], null
    function pointers, nothing allocated. *)
Definition initial_state : state :=
  State 0 None None None None [] [].

(** ** The monad: state passing, [None] for undefined behaviour (a call
    through a null pointer, an access outside a live block). *)

Definition M (A : Type) : Type := state -> option (A * state).

Definition ret {A} (a : A) : M A := fun st => Some (a, st).

Definition bind {A B} (m : M A) (k : A -> M B) : M B :=
  fun st => match m st with
            | Some (a, st') => k a st'
            | None => None
            end.

Definition fault {A} : M A := fun _ => None.

Definition get : M state := fun st => Some (st, st).

Definition modify (f : state -> state) : M unit := fun st => Some (tt, f st).

Declare Scope c_scope.
Delimit Scope c_scope with C.
Notation "'let*' x ':=' m 'in' k" := (bind m (fun x => k))
  (at level 10, x name, m at level 100, k at level 200) : c_scope.
Local Open Scope c_scope.

(** ** Two concrete worlds, to run the program in

    In [world_ready] the readiness property reads "true" from the fifth
    poll on, the library and its three symbols are there, the device
    boots from an SD/eMMC controller with the ICE node present, and the
    allocator never fails.  [world_never_ready] differs in that the
    readiness property is never set. *)

Definition world_ready : world := {|
  w_property := fun t key =>
    if String.eqb key "ro.boot.bootdevice" then Some "7824900.sdhci"
    else if String.eqb key "sys.keymaster.loaded"
    then (if (length t <? 12)%nat then None else Some "true")
    else None;
  w_exists := fun _ path => String.eqb path "/dev/icesdcc";
  w_dlopen := fun _ _ => Some 7%N;
  w_dlsym := fun _ _ symbol =>
    if String.eqb symbol "QSEECom_create_key" then DlFound 100
    else if String.eqb symbol "QSEECom_update_key_user_info" then DlFound 200
    else DlFound 300;
  w_malloc := fun _ _ => Some (fun _ => "x"%char);
  w_call := fun _ addr usage _ => Z.of_N addr + usage;
  w_hw_get_module_by_class := fun _ _ => (0, {| module_api_version := 3 |})
|}.

Definition world_never_ready : world := {|
  w_property := fun _ key =>
    if String.eqb key "ro.boot.bootdevice" then Some "7824900.sdhci" else None;
  w_exists := w_exists world_ready;
  w_dlopen := w_dlopen world_ready;
  w_dlsym := w_dlsym world_ready;
  w_malloc := w_malloc world_ready;
  w_call := w_call world_ready;
  w_hw_get_module_by_class := fun _ _ => (-2, {| module_api_version := 0 |})
|}.

Section Gateway.

(** The world the process runs in. *)
Variable W : world.

(** Constants of Android headers the file includes but the repository
    does not carry: [PROPERTY_VALUE_MAX] (cutils/properties.h),
    [KEYMASTER_MODULE_API_VERSION_0_3] (hardware/keymaster_common.h) and
    [KEYSTORE_HARDWARE_MODULE_ID] (hardware/keymaster_common.h). *)
Variable PROPERTY_VALUE_MAX : nat.
Variable KEYMASTER_MODULE_API_VERSION_0_3 : Z.
Variable KEYSTORE_HARDWARE_MODULE_ID : string.

(** ** System and libc calls *)

(** [property_get(key, value, default_value)]: fills [value] and returns
    its length. *)
Definition property_get (key default_value : string) : M (Z * string) :=
  fun st =>
    let value := match w_property W (trace st) key with
                 | Some v => v
                 | None => default_value
                 end in
    Some ((Z.of_nat (String.length (c_str value)), value),
          log (EvPropertyGet key value) st).

Definition usleep (usec : Z) : M unit :=
  modify (log (EvUsleep usec)).

(** [access(path, F_OK)]: 0 when the path exists, -1 otherwise. *)
Definition access (path : string) : M Z :=
  fun st =>
    let rc := if w_exists W (trace st) path then 0 else -1 in
    Some (rc, log (EvAccess path rc) st).

(** [dlopen]: the handle, or NULL with an error left for [dlerror]. *)
Definition dlopen (name : string) : M (option N) :=
  fun st =>
    let handle := w_dlopen W (trace st) name in
    let st' := log (EvDlopen name handle) st in
    match handle with
    | Some _ => Some (handle, st')
    | None => Some (handle, set_dl_pending (Some "cannot load library") st')
    end.

(** [dlsym]: the address, or NULL with the error left for [dlerror]. *)
Definition dlsym (handle : N) (symbol : string) : M (option N) :=
  fun st =>
    let r := w_dlsym W (trace st) handle symbol in
    let st' := log (EvDlsym handle symbol r) st in
    match r with
    | DlFound addr => Some (Some addr, st')
    | DlError msg => Some (None, set_dl_pending (Some msg) st')
    end.

(** [dlerror]: the error since the last call of it, which it clears. *)
Definition dlerror : M (option string) :=
  fun st => Some (dl_pending st, set_dl_pending None st).

Definition dlclose (handle : option N) : M unit :=
  match handle with
  | Some h => modify (log (EvDlclose h))
  | None => fault
  end.

Definition malloc (size : nat) : M (option nat) :=
  fun st =>
    match w_malloc W (trace st) size with
    | Some junk =>
        let p := length (heap st) in
        Some (Some p,
              log (EvMalloc size (Some p))
                  (set_heap (heap st ++ [Block (map junk (seq 0 size)) true]) st))
    | None => Some (None, log (EvMalloc size None) st)
    end.

(** [free(p)]: nothing for NULL; the block keeps its bytes. *)
Definition free (p : option nat) : M unit :=
  match p with
  | None => ret tt
  | Some a =>
      fun st =>
        match heap st !! a with
        | Some b =>
            if live b
            then Some (tt, log (EvFree a)
                               (set_heap (<[a := Block (data b) false]> (heap st)) st))
            else None
        | None => None
        end
  end.

(** [p[off] = c] on a block of the heap. *)
Definition store (p off : nat) (c : ascii) : M unit :=
  fun st =>
    match heap st !! p with
    | Some b =>
        if live b && (off <? length (data b))%nat
        then Some (tt, set_heap (<[p := Block (<[off := c]> (data b)) true]> (heap st)) st)
        else None
    | None => None
    end.

(** The bytes a callee finds behind its buffer arguments. *)
Fixpoint read_bufs (h : list block) (ps : list nat) : option (list (list ascii)) :=
  match ps with
  | [] => Some []
  | p :: ps' =>
      match h !! p with
      | Some b =>
          if live b
          then match read_bufs h ps' with
               | Some bs => Some (data b :: bs)
               | None => None
               end
          else None
      | None => None
      end
  end.

(** A call through one of the three function pointers.  The callee
    reads its buffers and returns a status; it is taken not to write to
    them. *)
Definition call_ptr (f : option N) (usage : Z) (bufs : list nat) : M Z :=
  fun st =>
    match f with
    | Some addr =>
        match read_bufs (heap st) bufs with
        | Some bs =>
            let status := w_call W (trace st) addr usage bs in
            Some (status, log (EvCall addr usage bs status) st)
        | None => None
        end
    | None => None
    end.

Definition hw_get_module_by_class (id : string) : M (Z * hw_module_t) :=
  fun st =>
    let r := w_hw_get_module_by_class W (trace st) id in
    Some (r, log (EvHwGetModule id (fst r)) st).

Fixpoint memcpy_loop (dst : nat) (src : list ascii) (off n : nat) : M unit :=
  match n with
  | O => ret tt
  | S n' =>
      match src !! off with
      | Some c => let* _ := store dst off c in memcpy_loop dst src (S off) n'
      | None => fault
      end
  end.

Definition memcpy (dst : nat) (src : string) (n : nat) : M unit :=
  memcpy_loop dst (c_mem src) O n.

(** ** The functions of cryptfs_hw.c (logging calls left out) *)

(** [while (n--) *p++ = c;] *)
Fixpoint secure_memset_loop (v off : nat) (c : Z) (n : nat) : M unit :=
  match n with
  | O => ret tt
  | S n' =>
      let* _ := store v off (ascii_of_N (Z.to_N (c mod 256))) in
      secure_memset_loop v (S off) c n'
  end.

Definition secure_memset (v : nat) (c : Z) (n : nat) : M nat :=
  let* _ := secure_memset_loop v O c n in
  ret v.

(** The [for] loop of [is_qseecom_up], with [n] iterations left. *)
Fixpoint is_qseecom_up_loop (n : nat) : M Z :=
  match n with
  | O => ret 0
  | S n' =>
      let* value := property_get "sys.keymaster.loaded" "" in
      if strncmp (snd value) "true" PROPERTY_VALUE_MAX =? 0
      then ret 1
      else let* _ := usleep 100000 in is_qseecom_up_loop n'
  end.

Definition is_qseecom_up : M Z :=
  is_qseecom_up_loop CRYPTFS_HW_UP_CHECK_COUNT.

Definition load_qseecom_library : M Z :=
  let* st := get in
  if negb (loaded_library st =? 0) then ret (loaded_library st) else
  let* up := is_qseecom_up in
  if up =? 0 then ret 0 else
  let* handle := dlopen QSEECOM_LIBRARY_NAME in
  let* error :=
    match handle with
    | Some h =>
        let* _ := dlerror in
        let* f := dlsym h "QSEECom_create_key" in
        let* _ := modify (set_qseecom_create_key f) in
        let* error := dlerror in
        match error with
        | None =>
            let* f := dlsym h "QSEECom_update_key_user_info" in
            let* _ := modify (set_qseecom_update_key f) in
            let* error := dlerror in
            match error with
            | None =>
                let* f := dlsym h "QSEECom_wipe_key" in
                let* _ := modify (set_qseecom_wipe_key f) in
                let* error := dlerror in
                match error with
                | None =>
                    let* _ := modify (set_loaded_library 1) in
                    ret error
                | Some _ => ret error
                end
            | Some _ => ret error
            end
        | Some _ => ret error
        end
    | None => ret None
    end in
  let* _ := match error with
            | Some _ => dlclose handle
            | None => ret tt
            end in
  let* st := get in
  ret (loaded_library st).

Definition cryptfs_hw_create_key (usage : Z) (hash32 : nat) : M Z :=
  let* loaded := load_qseecom_library in
  if negb (loaded =? 0)
  then let* st := get in call_ptr (qseecom_create_key st) usage [hash32]
  else ret CRYPTFS_HW_CREATE_KEY_FAILED.

Definition cryptfs_hw_wipe_key (usage : Z) : M Z :=
  let* loaded := load_qseecom_library in
  if negb (loaded =? 0)
  then let* st := get in call_ptr (qseecom_wipe_key st) usage []
  else ret CRYPTFS_HW_WIPE_KEY_FAILED.

Definition cryptfs_hw_update_key (usage : Z) (current_hash32 new_hash32 : nat) : M Z :=
  let* loaded := load_qseecom_library in
  if negb (loaded =? 0)
  then let* st := get in
       call_ptr (qseecom_update_key st) usage [current_hash32; new_hash32]
  else ret CRYPTFS_HW_UPDATE_KEY_FAILED.

Definition is_ice_enabled : M Z :=
  let storage_type := 0 in
  let* rc := access METADATA_PARTITION_NAME in
  if rc =? 0 then ret 0 else
  let* prop_storage := property_get "ro.boot.bootdevice" "" in
  if negb (fst prop_storage =? 0) then
    match strstr (snd prop_storage) "ufs" with
    | Some _ => ret QTI_ICE_STORAGE_UFS
    | None =>
        match strstr (snd prop_storage) "sdhc" with
        | Some _ =>
            let* rc := access "/dev/icesdcc" in
            if negb (rc =? -1) then ret QTI_ICE_STORAGE_SDCC
            else ret storage_type
        | None => ret storage_type
        end
    end
  else ret storage_type.

Definition map_usage (usage : Z) : M Z :=
  let* storage_type := is_ice_enabled in
  if usage =? CRYPTFS_HW_KM_USAGE_DISK_ENCRYPTION then
    if storage_type =? QTI_ICE_STORAGE_UFS
    then ret CRYPTFS_HW_KM_USAGE_UFS_ICE_DISK_ENCRYPTION
    else if storage_type =? QTI_ICE_STORAGE_SDCC
    then ret CRYPTFS_HW_KM_USAGE_SDCC_ICE_DISK_ENCRYPTION
    else ret usage
  else ret usage.

Definition get_tmp_passwd (passwd : option string) : M (option nat) :=
  match passwd with
  | Some pw =>
      let* tmp_passwd := malloc MAX_PASSWORD_LEN in
      match tmp_passwd with
      | Some p =>
          let* _ := secure_memset p 0 MAX_PASSWORD_LEN in
          let passwd_len := strnlen pw MAX_PASSWORD_LEN in
          let* _ := memcpy p pw passwd_len in
          ret tmp_passwd
      | None => ret tmp_passwd
      end
  | None => ret None
  end.

Definition set_key (currentpasswd passwd enc_mode : option string) (operation : Z) : M Z :=
  let err := -1 in
  if negb (is_hw_disk_encryption enc_mode =? 0) then
    let* tmp_passwd := get_tmp_passwd passwd in
    let* tmp_currentpasswd := get_tmp_passwd currentpasswd in
    match tmp_passwd with
    | Some p =>
        let* err :=
          if operation =? UPDATE_HW_DISK_ENC_KEY then
            match tmp_currentpasswd with
            | Some cp =>
                let* usage := map_usage CRYPTFS_HW_KM_USAGE_DISK_ENCRYPTION in
                let* err := cryptfs_hw_update_key usage cp p in
                let* _ := secure_memset cp 0 MAX_PASSWORD_LEN in
                ret err
            | None => ret err
            end
          else if operation =? SET_HW_DISK_ENC_KEY then
            let* usage := map_usage CRYPTFS_HW_KM_USAGE_DISK_ENCRYPTION in
            cryptfs_hw_create_key usage p
          else ret err in
        let* _ := secure_memset p 0 MAX_PASSWORD_LEN in
        let* _ := free tmp_passwd in
        let* _ := free tmp_currentpasswd in
        ret err
    | None => ret err
    end
  else ret err.

Definition set_hw_device_encryption_key (passwd enc_mode : option string) : M Z :=
  set_key None passwd enc_mode SET_HW_DISK_ENC_KEY.

Definition update_hw_device_encryption_key (oldpw newpw enc_mode : option string) : M Z :=
  set_key oldpw newpw enc_mode UPDATE_HW_DISK_ENC_KEY.

Definition clear_hw_device_encryption_key : M Z :=
  let* usage := map_usage CRYPTFS_HW_KM_USAGE_DISK_ENCRYPTION in
  cryptfs_hw_wipe_key usage.

Definition get_keymaster_version : M Z :=
  let* r := hw_get_module_by_class KEYSTORE_HARDWARE_MODULE_ID in
  if negb (fst r =? 0) then ret (fst r)
  else ret (module_api_version (snd r)).

Definition should_use_keymaster : M Z :=
  let rc := 1 in
  let* version := get_keymaster_version in
  if version =? KEYMASTER_MODULE_API_VERSION_0_3 then ret 0 else ret rc.

(** ** Vocabulary of the statements *)

(** [strlen]. *)
Definition strlen (s : string) : nat := String.length (c_str s).

(** The first [n] characters of a C string. *)
Fixpoint c_prefix (n : nat) (s : string) {struct n} : string :=
  match n, s with
  | O, _ => EmptyString
  | S _, EmptyString => EmptyString
  | S m, String c s' =>
      if ascii_dec c NUL then EmptyString else String c (c_prefix m s')
  end.

(** [needle] is a substring of the C string [hay]. *)
Definition occurs (needle hay : string) : Prop :=
  exists before after,
    c_str hay = String.append before (String.append needle after).

(** The 32 bytes [get_tmp_passwd] leaves in its buffer. *)
Definition tmp_buffer (passwd : string) : list ascii :=
  list_ascii_of_string (c_prefix MAX_PASSWORD_LEN passwd)
    ++ replicate (MAX_PASSWORD_LEN - strnlen passwd MAX_PASSWORD_LEN) NUL.

Definition all_zero (bytes : list ascii) : bool :=
  forallb (fun c => if ascii_dec c NUL then true else false) bytes.

(** A state after some more events, everything else untouched. *)
Definition logs (ev : list event) (st : state) : state :=
  foldr log st ev.

(** A call into the QSEECom library. *)
Definition is_call (e : event) : bool :=
  match e with
  | EvCall _ _ _ _ => true
  | _ => false
  end.

(** A step of the readiness wait or of symbol resolution. *)
Definition is_load_step (e : event) : bool :=
  match e with
  | EvPropertyGet key _ => String.eqb key "sys.keymaster.loaded"
  | EvUsleep _ | EvDlopen _ _ | EvDlsym _ _ _ | EvDlclose _ => true
  | _ => false
  end.

(** A poll of the readiness property, and one that read "true". *)
Definition is_poll (e : event) : bool :=
  match e with
  | EvPropertyGet key _ => String.eqb key "sys.keymaster.loaded"
  | _ => false
  end.

Definition observed_ready (e : event) : bool :=
  match e with
  | EvPropertyGet key value =>
      String.eqb key "sys.keymaster.loaded" && String.eqb (c_str value) "true"
  | _ => false
  end.

Definition polls (ev : list event) : nat := length (List.filter is_poll ev).

Definition never_ready (ev : list event) : Prop :=
  Forall (fun e => observed_ready e = false) ev.

Definition no_call (ev : list event) : Prop :=
  Forall (fun e => is_call e = false) ev.

Definition no_load_step (ev : list event) : Prop :=
  Forall (fun e => is_load_step e = false) ev.

(** The three function pointers are all non-null. *)
Definition pointers_valid (st : state) : bool :=
  match qseecom_create_key st, qseecom_update_key st, qseecom_wipe_key st with
  | Some _, Some _, Some _ => true
  | _, _, _ => false
  end.

(** The invariant of the library handle state: the flag is set only
    together with all three pointers. *)
Definition library_consistent (st : state) : bool :=
  (loaded_library st =? 0) || pointers_valid st.

Definition same_library (st st' : state) : Prop :=
  loaded_library st' = loaded_library st /\
  qseecom_create_key st' = qseecom_create_key st /\
  qseecom_update_key st' = qseecom_update_key st /\
  qseecom_wipe_key st' = qseecom_wipe_key st.

(** The events of a successful load, newest first: the polls, [dlopen],
    then the three symbols in the order create, update, wipe. *)
Definition resolved_in_order (ev : list event) (st' : state) : Prop :=
  exists handle create update wipe waited,
    ev = EvDlsym handle "QSEECom_wipe_key" (DlFound wipe)
         :: EvDlsym handle "QSEECom_update_key_user_info" (DlFound update)
         :: EvDlsym handle "QSEECom_create_key" (DlFound create)
         :: EvDlopen QSEECOM_LIBRARY_NAME (Some handle)
         :: waited /\
    Forall (fun e => is_poll e = true \/ exists us, e = EvUsleep us) waited /\
    qseecom_create_key st' = Some create /\
    qseecom_update_key st' = Some update /\
    qseecom_wipe_key st' = Some wipe.

(** The three key operations on the library. *)
Inductive key_op :=
| CreateKey (usage : Z) (hash32 : nat)
| WipeKey (usage : Z)
| UpdateKey (usage : Z) (current_hash32 new_hash32 : nat).

Definition run_op (op : key_op) : M Z :=
  match op with
  | CreateKey usage hash32 => cryptfs_hw_create_key usage hash32
  | WipeKey usage => cryptfs_hw_wipe_key usage
  | UpdateKey usage cur new => cryptfs_hw_update_key usage cur new
  end.

Definition op_sentinel (op : key_op) : Z :=
  match op with
  | CreateKey _ _ => CRYPTFS_HW_CREATE_KEY_FAILED
  | WipeKey _ => CRYPTFS_HW_WIPE_KEY_FAILED
  | UpdateKey _ _ _ => CRYPTFS_HW_UPDATE_KEY_FAILED
  end.

Definition op_usage (op : key_op) : Z :=
  match op with
  | CreateKey usage _ | WipeKey usage | UpdateKey usage _ _ => usage
  end.

Definition op_bufs (op : key_op) : list nat :=
  match op with
  | CreateKey _ hash32 => [hash32]
  | WipeKey _ => []
  | UpdateKey _ cur new => [cur; new]
  end.

Definition op_pointer (op : key_op) (st : state) : option N :=
  match op with
  | CreateKey _ _ => qseecom_create_key st
  | WipeKey _ => qseecom_wipe_key st
  | UpdateKey _ _ _ => qseecom_update_key st
  end.

(** The usage tag a disk-encryption request carries on a backend. *)
Definition backend_usage (storage_type : Z) : Z :=
  if storage_type =? QTI_ICE_STORAGE_UFS
  then CRYPTFS_HW_KM_USAGE_UFS_ICE_DISK_ENCRYPTION
  else if storage_type =? QTI_ICE_STORAGE_SDCC
  then CRYPTFS_HW_KM_USAGE_SDCC_ICE_DISK_ENCRYPTION
  else CRYPTFS_HW_KM_USAGE_DISK_ENCRYPTION.

(** What a key operation does, from a state where the buffers it is
    given hold [bufs]: [load_ev] are the events of the library load it
    attempts, and the call through the pointer follows only when the
    flag is set afterwards. *)
Definition op_outcome (op : key_op) (st : state) (bufs : list (list ascii))
    (r : Z) (st' : state) (load_ev : list event) : Prop :=
  run_op op st = Some (r, st') /\
  heap st' = heap st /\
  library_consistent st' = true /\
  (loaded_library st <> 0 -> load_ev = [] /\ same_library st st') /\
  (loaded_library st = 0 ->
     Forall (fun e => is_load_step e = true) load_ev /\
     (loaded_library st' <> 0 -> resolved_in_order load_ev st') /\
     ((4 < PROPERTY_VALUE_MAX)%nat -> never_ready load_ev ->
      loaded_library st' = 0 /\
      polls load_ev = CRYPTFS_HW_UP_CHECK_COUNT)) /\
  (loaded_library st' = 0 ->
     r = op_sentinel op /\ trace st' = load_ev ++ trace st) /\
  (loaded_library st' <> 0 ->
     exists f,
       op_pointer op st' = Some f /\
       r = w_call W (load_ev ++ trace st) f (op_usage op) bufs /\
       trace st' = EvCall f (op_usage op) bufs r :: load_ev ++ trace st).

(** The signals [is_ice_enabled] reads, at the moments it reads them. *)
Definition metadata_exists (st : state) : bool :=
  w_exists W (trace st) METADATA_PARTITION_NAME.

Definition bootdevice (st : state) : string :=
  default "" (w_property W
    (EvAccess METADATA_PARTITION_NAME (-1) :: trace st) "ro.boot.bootdevice").

Definition icesdcc_exists (st : state) : bool :=
  w_exists W
    (EvPropertyGet "ro.boot.bootdevice" (bootdevice st)
       :: EvAccess METADATA_PARTITION_NAME (-1) :: trace st)
    "/dev/icesdcc".

(** [buf] is the fixed-size copy of a password: 32 bytes; a strict
    prefix of a longer password; a shorter password followed by zero
    bytes only. *)
Definition padded_copy (passwd : string) (buf : list ascii) : Prop :=
  length buf = MAX_PASSWORD_LEN /\
  ((MAX_PASSWORD_LEN < strlen passwd)%nat ->
   exists rest, rest <> [] /\
                list_ascii_of_string (c_str passwd) = buf ++ rest) /\
  ((strlen passwd < MAX_PASSWORD_LEN)%nat ->
   buf = list_ascii_of_string (c_str passwd)
           ++ replicate (MAX_PASSWORD_LEN - strlen passwd) NUL).

(** Every call into the library among [ev] was given exactly [bufs]. *)
Definition calls_carry (bufs : list (list ascii)) (ev : list event) : Prop :=
  Forall (fun e => forall f usage bs status,
                     e = EvCall f usage bs status -> bs = bufs) ev.

(** The exported functions that touch the state, and the states a
    process can be in: any number of calls after start. *)
Inductive api_call :=
| ApiSetKey (passwd enc_mode : option string)
| ApiUpdateKey (oldpw newpw enc_mode : option string)
| ApiClearKey
| ApiIsIceEnabled
| ApiShouldUseKeymaster.

Definition run_api (c : api_call) : M Z :=
  match c with
  | ApiSetKey passwd enc_mode => set_hw_device_encryption_key passwd enc_mode
  | ApiUpdateKey oldpw newpw enc_mode =>
      update_hw_device_encryption_key oldpw newpw enc_mode
  | ApiClearKey => clear_hw_device_encryption_key
  | ApiIsIceEnabled => is_ice_enabled
  | ApiShouldUseKeymaster => should_use_keymaster
  end.

Inductive reachable : state -> Prop :=
| reachable_start : reachable initial_state
| reachable_call c st r st' :
    reachable st -> run_api c st = Some (r, st') -> reachable st'.

(** One step of the library handle state: consistency is kept, and a
    set flag stays as it is, with its pointers. *)
Definition lib_step (st st' : state) : Prop :=
  (library_consistent st = true -> library_consistent st' = true) /\
  (loaded_library st <> 0 -> same_library st st').

Definition preserves {A} (m : M A) : Prop :=
  forall st a st', m st = Some (a, st') -> lib_step st st'.

(** Total time asked of [usleep], in microseconds. *)
Definition slept (ev : list event) : Z :=
  foldr (fun e acc => match e with
                      | EvUsleep usec => usec + acc
                      | _ => acc
                      end) 0 ev.

(** The handles [dlopen] returned and the handles given to [dlclose]. *)
Definition opened (ev : list event) : list N :=
  foldr (fun e acc => match e with
                      | EvDlopen _ (Some h) => h :: acc
                      | _ => acc
                      end) [] ev.

Definition closed (ev : list event) : list N :=
  foldr (fun e acc => match e with
                      | EvDlclose h => h :: acc
                      | _ => acc
                      end) [] ev.

(** A probe of the SDCC device node. *)
Definition probes_icesdcc (e : event) : bool :=
  match e with
  | EvAccess path _ => String.eqb path "/dev/icesdcc"
  | _ => false
  end.

(** What [load_qseecom_library] does after the readiness wait, newest
    event first, and the flag it leaves. *)
Inductive load_tail : list event -> Z -> Prop :=
| load_timed_out : load_tail [] 0
| load_no_library :
    load_tail [EvDlopen QSEECOM_LIBRARY_NAME None] 0
| load_no_create h msg :
    load_tail [EvDlclose h;
               EvDlsym h "QSEECom_create_key" (DlError msg);
               EvDlopen QSEECOM_LIBRARY_NAME (Some h)] 0
| load_no_update h create msg :
    load_tail [EvDlclose h;
               EvDlsym h "QSEECom_update_key_user_info" (DlError msg);
               EvDlsym h "QSEECom_create_key" (DlFound create);
               EvDlopen QSEECOM_LIBRARY_NAME (Some h)] 0
| load_no_wipe h create update msg :
    load_tail [EvDlclose h;
               EvDlsym h "QSEECom_wipe_key" (DlError msg);
               EvDlsym h "QSEECom_update_key_user_info" (DlFound update);
               EvDlsym h "QSEECom_create_key" (DlFound create);
               EvDlopen QSEECOM_LIBRARY_NAME (Some h)] 0
| load_done h create update wipe :
    load_tail [EvDlsym h "QSEECom_wipe_key" (DlFound wipe);
               EvDlsym h "QSEECom_update_key_user_info" (DlFound update);
               EvDlsym h "QSEECom_create_key" (DlFound create);
               EvDlopen QSEECOM_LIBRARY_NAME (Some h)] 1.

(** A block that is either still allocated or holds zero bytes only. *)
Definition freed_clean (b : block) : bool :=
  live b || all_zero (data b).

(** ** Facts about the C string functions *)

Lemma uchar_inj c d : uchar c = uchar d -> c = d.
Proof.
  unfold uchar. intros H. apply N2Z.inj in H.
  rewrite <- (ascii_N_embedding c), <- (ascii_N_embedding d).
  now f_equal.
Qed.

Lemma uchar_zero c : uchar c = 0 -> c = NUL.
Proof. intros H. apply uchar_inj. exact H. Qed.

Lemma c_str_idem s : c_str (c_str s) = c_str s.
Proof.
  induction s as [|c s IH]; simpl; [reflexivity|].
  destruct (ascii_dec c NUL) as [->|Hc]; simpl; [reflexivity|].
  destruct (ascii_dec c NUL); [contradiction|]. now rewrite IH.
Qed.

Lemma strcmp_zero a b : strcmp a b = 0 <-> c_str a = c_str b.
Proof.
  revert b. induction a as [|c a IH]; intros [|d b]; simpl.
  - split; reflexivity.
  - destruct (ascii_dec d NUL) as [->|Hd].
    + split; reflexivity.
    + split; [intros H | discriminate].
      exfalso. apply Hd, uchar_zero. lia.
  - destruct (ascii_dec c NUL) as [->|Hc].
    + split; reflexivity.
    + split; [intros H | discriminate].
      exfalso. now apply Hc, uchar_zero.
  - destruct (ascii_dec c d) as [->|Hcd].
    + destruct (ascii_dec d NUL) as [->|Hd]; [split; reflexivity|].
      rewrite IH. split; [intros ->; reflexivity | congruence].
    + split.
      * intros H. exfalso. apply Hcd, uchar_inj. lia.
      * destruct (ascii_dec c NUL) as [->|Hc], (ascii_dec d NUL) as [->|Hd];
          congruence.
Qed.

Lemma strncmp_zero n a b : strncmp a b n = 0 <-> c_prefix n a = c_prefix n b.
Proof.
  revert a b. induction n as [|n IH]; intros a b; [simpl; split; reflexivity|].
  destruct a as [|c a], b as [|d b]; simpl.
  - split; reflexivity.
  - destruct (ascii_dec d NUL) as [->|Hd].
    + split; reflexivity.
    + split; [intros H | discriminate].
      exfalso. apply Hd, uchar_zero. lia.
  - destruct (ascii_dec c NUL) as [->|Hc].
    + split; reflexivity.
    + split; [intros H | discriminate].
      exfalso. now apply Hc, uchar_zero.
  - destruct (ascii_dec c d) as [->|Hcd].
    + destruct (ascii_dec d NUL) as [->|Hd]; [split; reflexivity|].
      rewrite IH. split; [intros ->; reflexivity | congruence].
    + split.
      * intros H. exfalso. apply Hcd, uchar_inj. lia.
      * destruct (ascii_dec c NUL) as [->|Hc], (ascii_dec d NUL) as [->|Hd];
          congruence.
Qed.

(** A prefix shorter than its bound is the whole C string. *)
Lemma c_prefix_short n s :
  (String.length (c_prefix n s) < n)%nat -> c_prefix n s = c_str s.
Proof.
  revert s. induction n as [|n IH]; intros s; simpl; [lia|].
  destruct s as [|c s]; [reflexivity|]. simpl.
  destruct (ascii_dec c NUL); [reflexivity|]. simpl.
  intros H. f_equal. apply IH. lia.
Qed.

Lemma c_prefix_all n s :
  (strlen s <= n)%nat -> c_prefix n s = c_str s.
Proof.
  unfold strlen. revert s. induction n as [|n IH]; intros s; simpl.
  - destruct s as [|c s]; simpl; [reflexivity|].
    destruct (ascii_dec c NUL); simpl; [reflexivity | lia].
  - destruct s as [|c s]; [reflexivity|]. simpl.
    destruct (ascii_dec c NUL); [reflexivity|]. simpl.
    intros H. f_equal. apply IH. lia.
Qed.

Lemma strnlen_prefix n s : strnlen s n = String.length (c_prefix n s).
Proof.
  revert s. induction n as [|n IH]; intros s; simpl.
  - destruct s; reflexivity.
  - destruct s as [|c s]; [reflexivity|].
    destruct (ascii_dec c NUL); simpl; [reflexivity|]. now rewrite IH.
Qed.

Lemma strnlen_min n s : strnlen s n = Nat.min (strlen s) n.
Proof.
  unfold strlen. revert s. induction n as [|n IH]; intros s; simpl.
  - destruct s; simpl; lia.
  - destruct s as [|c s]; [reflexivity|]. simpl.
    destruct (ascii_dec c NUL); simpl; [reflexivity|]. rewrite IH. lia.
Qed.

(** The readiness test of [is_qseecom_up], once the buffer is long
    enough to hold "true" and its terminator. *)
Lemma strncmp_true n value :
  (4 < n)%nat ->
  (strncmp value "true" n =? 0) = String.eqb (c_str value) "true".
Proof.
  intros Hn.
  destruct (String.eqb_spec (c_str value) "true") as [He|Hne].
  - apply Z.eqb_eq, strncmp_zero.
    rewrite (c_prefix_all n value), (c_prefix_all n "true"), He;
      unfold strlen; try rewrite He; simpl; try lia. reflexivity.
  - apply Z.eqb_neq. rewrite strncmp_zero. intros He. apply Hne.
    rewrite <- (c_prefix_short n value).
    + rewrite He. rewrite (c_prefix_all n "true"); [reflexivity|].
      unfold strlen. simpl. lia.
    + rewrite He. rewrite (c_prefix_all n "true"); unfold strlen; simpl; lia.
Qed.

Lemma starts_with_spec needle hay :
  starts_with needle hay = true <->
  exists after, c_str hay = String.append (c_str needle) after.
Proof.
  revert hay. induction needle as [|c n IH]; intros hay; simpl.
  - split; [intros _; now exists (c_str hay) | reflexivity].
  - destruct (ascii_dec c NUL) as [->|Hc]; simpl.
    { split; [intros _; now exists (c_str hay) | reflexivity]. }
    destruct hay as [|d h]; simpl.
    { split; [discriminate | intros [after H]; discriminate]. }
    destruct (ascii_dec c d) as [<-|Hcd].
    + destruct (ascii_dec c NUL); [contradiction|].
      rewrite IH. split; intros [after H]; exists after; congruence.
    + split; [discriminate | intros [after H]].
      destruct (ascii_dec d NUL); congruence.
Qed.

Lemma strstr_spec hay needle :
  is_Some (strstr hay needle) <-> occurs (c_str needle) hay.
Proof.
  unfold occurs. induction hay as [|d h IH].
  - simpl. destruct (starts_with needle "") eqn:Hs.
    + split; [intros _ | intros _; eexists; reflexivity].
      apply starts_with_spec in Hs as [after H]. now exists "", after.
    + split; [intros [x H]; discriminate | intros (before & after & H)].
      destruct before; simpl in H; [|discriminate].
      assert (starts_with needle "" = true) as E; [|congruence].
      apply starts_with_spec. now exists after.
  - cbn [strstr]. destruct (starts_with needle (String d h)) eqn:Hs.
    + split; [intros _ | intros _; eexists; reflexivity].
      apply starts_with_spec in Hs as [after H]. now exists "", after.
    + cbn [c_str]. destruct (ascii_dec d NUL) as [->|Hd].
      * split; [intros [x H]; discriminate | intros (before & after & H)].
        destruct before; simpl in H; [|discriminate].
        assert (starts_with needle (String NUL h) = true) as E; [|congruence].
        apply starts_with_spec. now exists after.
      * split.
        -- intros [x H]. destruct (strstr h needle) eqn:E; [|discriminate].
           destruct IH as [IH _].
           destruct IH as (before & after & H'); [eexists; reflexivity|].
           exists (String d before), after. simpl. now rewrite H'.
        -- intros (before & after & H). destruct before as [|b before].
           ++ assert (starts_with needle (String d h) = true) as E; [|congruence].
              apply starts_with_spec. exists after. simpl.
              destruct (ascii_dec d NUL); [contradiction | exact H].
           ++ simpl in H. injection H as _ H.
              destruct IH as [_ IH]. destruct IH as [x Hx]; [now exists before, after|].
              rewrite Hx. eexists; reflexivity.
Qed.

Lemma strstr_None hay needle :
  strstr hay needle = None <-> ~ occurs (c_str needle) hay.
Proof.
  rewrite <- strstr_spec, <- eq_None_not_Some. reflexivity.
Qed.

(** ** Facts about states and the monad *)

Lemma bind_Some {A B} (m : M A) (k : A -> M B) st a st1 :
  m st = Some (a, st1) -> bind m k st = k a st1.
Proof. unfold bind. now intros ->. Qed.

Lemma logs_app ev1 ev2 st : logs (ev1 ++ ev2) st = logs ev1 (logs ev2 st).
Proof. unfold logs. apply foldr_app. Qed.

Lemma trace_logs ev st : trace (logs ev st) = ev ++ trace st.
Proof. induction ev as [|e ev IH]; simpl; [reflexivity | now rewrite IH]. Qed.

Lemma heap_logs ev st : heap (logs ev st) = heap st.
Proof. induction ev as [|e ev IH]; simpl; [reflexivity | exact IH]. Qed.

Lemma loaded_library_logs ev st : loaded_library (logs ev st) = loaded_library st.
Proof. induction ev as [|e ev IH]; simpl; [reflexivity | exact IH]. Qed.

Lemma same_library_logs ev st : same_library st (logs ev st).
Proof.
  unfold same_library.
  induction ev as [|e ev IH]; simpl; [repeat split | exact IH].
Qed.

Lemma same_library_refl st : same_library st st.
Proof. repeat split. Qed.

Lemma same_library_trans st1 st2 st3 :
  same_library st1 st2 -> same_library st2 st3 -> same_library st1 st3.
Proof. unfold same_library. intuition congruence. Qed.

Lemma same_library_consistent st st' :
  same_library st st' -> library_consistent st' = library_consistent st.
Proof.
  unfold same_library, library_consistent, pointers_valid.
  intros (-> & -> & -> & ->). reflexivity.
Qed.

(** ** Backend selection *)

Lemma occurs_nonempty needle hay :
  c_str hay = "" -> needle <> "" -> ~ occurs needle hay.
Proof.
  intros He Hn (before & after & H). rewrite He in H.
  destruct before; simpl in H; [|discriminate].
  destruct needle; [contradiction | discriminate].
Qed.

Lemma length_zero_empty s : Z.of_nat (String.length s) = 0 -> s = "".
Proof. destruct s; simpl; [reflexivity | lia]. Qed.

Lemma is_ice_enabled_run st :
  exists r ev,
    is_ice_enabled st = Some (r, logs ev st) /\
    no_call ev /\ no_load_step ev /\
    (metadata_exists st = true -> r = 0) /\
    (metadata_exists st = false -> occurs "ufs" (bootdevice st) ->
     r = QTI_ICE_STORAGE_UFS) /\
    (metadata_exists st = false -> ~ occurs "ufs" (bootdevice st) ->
     occurs "sdhc" (bootdevice st) ->
     r = if icesdcc_exists st then QTI_ICE_STORAGE_SDCC else 0) /\
    (metadata_exists st = false -> ~ occurs "ufs" (bootdevice st) ->
     ~ occurs "sdhc" (bootdevice st) -> r = 0).
Proof.
  unfold is_ice_enabled, icesdcc_exists, bootdevice, metadata_exists,
    no_call, no_load_step, bind, access, property_get, ret.
  cbn [trace log].
  destruct (w_exists W (trace st) METADATA_PARTITION_NAME) eqn:Hmeta.
  { exists 0, [EvAccess METADATA_PARTITION_NAME 0]. cbn.
    repeat split; try discriminate; repeat constructor. }
  cbn [Z.eqb trace log fst snd].
  destruct (w_property W _ "ro.boot.bootdevice") as [v|] eqn:Hprop;
    cbn [default fst snd].
  2:{ exists 0, [EvPropertyGet "ro.boot.bootdevice" "";
                 EvAccess METADATA_PARTITION_NAME (-1)].
      cbn. repeat split; try discriminate; repeat constructor.
      - intros _ H. now apply occurs_nonempty in H.
      - intros _ _ H. now apply occurs_nonempty in H. }
  destruct (Z.of_nat (String.length (c_str v)) =? 0) eqn:Hlen; cbn [negb].
  { apply Z.eqb_eq, length_zero_empty in Hlen.
    exists 0, [EvPropertyGet "ro.boot.bootdevice" v;
               EvAccess METADATA_PARTITION_NAME (-1)].
    cbn. repeat split; try discriminate; repeat constructor.
    - intros _ H. now apply occurs_nonempty in H.
    - intros _ _ H. now apply occurs_nonempty in H. }
  destruct (strstr v "ufs") as [off|] eqn:Hufs.
  { exists QTI_ICE_STORAGE_UFS,
      [EvPropertyGet "ro.boot.bootdevice" v;
       EvAccess METADATA_PARTITION_NAME (-1)].
    assert (occurs "ufs" v) as Hocc
      by (apply (strstr_spec v "ufs"); eexists; exact Hufs).
    cbn. repeat split; try discriminate; try contradiction; repeat constructor. }
  apply (strstr_None v "ufs") in Hufs. change (c_str "ufs") with "ufs" in Hufs.
  destruct (strstr v "sdhc") as [off|] eqn:Hsdhc.
  - assert (occurs "sdhc" v) as Hocc
      by (apply (strstr_spec v "sdhc"); eexists; exact Hsdhc).
    cbn [trace log].
    destruct (w_exists W _ "/dev/icesdcc") eqn:Hnode.
    + exists QTI_ICE_STORAGE_SDCC,
        [EvAccess "/dev/icesdcc" 0; EvPropertyGet "ro.boot.bootdevice" v;
         EvAccess METADATA_PARTITION_NAME (-1)].
      cbn. repeat split; try discriminate; try contradiction; repeat constructor.
    + exists 0,
        [EvAccess "/dev/icesdcc" (-1); EvPropertyGet "ro.boot.bootdevice" v;
         EvAccess METADATA_PARTITION_NAME (-1)].
      cbn. repeat split; try discriminate; try contradiction; repeat constructor.
  - apply (strstr_None v "sdhc") in Hsdhc.
    change (c_str "sdhc") with "sdhc" in Hsdhc.
    exists 0, [EvPropertyGet "ro.boot.bootdevice" v;
               EvAccess METADATA_PARTITION_NAME (-1)].
    cbn. repeat split; try discriminate; try contradiction; repeat constructor.
Qed.

Lemma map_usage_run usage st :
  exists storage_type ev,
    is_ice_enabled st = Some (storage_type, logs ev st) /\
    map_usage usage st =
      Some (if usage =? CRYPTFS_HW_KM_USAGE_DISK_ENCRYPTION
            then backend_usage storage_type else usage, logs ev st) /\
    no_call ev /\ no_load_step ev.
Proof.
  destruct (is_ice_enabled_run st) as (r & ev & Hrun & Hc & Hl & _).
  exists r, ev. repeat split; try assumption.
  unfold map_usage. rewrite (bind_Some _ _ _ _ _ Hrun).
  unfold backend_usage.
  destruct (Z.eqb_spec usage CRYPTFS_HW_KM_USAGE_DISK_ENCRYPTION) as [->|];
    [|reflexivity].
  destruct (r =? QTI_ICE_STORAGE_UFS); [reflexivity|].
  destruct (r =? QTI_ICE_STORAGE_SDCC); reflexivity.
Qed.

(** ** The heap: [secure_memset], [memcpy], [get_tmp_passwd] *)

Lemma set_heap_same st : set_heap (heap st) st = st.
Proof. now destruct st. Qed.

Lemma set_heap_set_heap h1 h2 st : set_heap h2 (set_heap h1 st) = set_heap h2 st.
Proof. reflexivity. Qed.

Lemma store_run st p off c d :
  heap st !! p = Some (Block d true) -> (off < length d)%nat ->
  store p off c st =
    Some (tt, set_heap (<[p := Block (<[off := c]> d) true]> (heap st)) st).
Proof.
  intros Hp Hoff. unfold store. rewrite Hp. cbn [live data].
  apply Nat.ltb_lt in Hoff. now rewrite Hoff.
Qed.

Lemma secure_memset_loop_run p c n : forall off d st,
  heap st !! p = Some (Block d true) -> (off + n <= length d)%nat ->
  secure_memset_loop p off c n st =
    Some (tt, set_heap
      (<[p := Block (take off d
                       ++ replicate n (ascii_of_N (Z.to_N (c mod 256)))
                       ++ drop (off + n) d) true]> (heap st)) st).
Proof.
  induction n as [|n IH]; intros off d st Hp Hlen; cbn [secure_memset_loop].
  - rewrite Nat.add_0_r. cbn [replicate app]. rewrite take_drop.
    rewrite list_insert_id by exact Hp. now rewrite set_heap_same.
  - rewrite (bind_Some _ _ _ _ _ (store_run st p off _ d Hp ltac:(lia))).
    pose proof (lookup_lt_Some _ _ _ Hp) as Hlt.
    rewrite (IH (S off) (<[off := ascii_of_N (Z.to_N (c mod 256))]> d));
      [| cbn [heap set_heap]; now apply list_lookup_insert_eq
       | rewrite length_insert; lia].
    rewrite set_heap_set_heap. cbn [heap set_heap].
    rewrite list_insert_insert_eq.
    rewrite (take_S_r _ _ (ascii_of_N (Z.to_N (c mod 256))))
      by (apply list_lookup_insert_eq; lia).
    rewrite take_insert_ge by lia. rewrite drop_insert_lt by lia.
    rewrite <- app_assoc. cbn [replicate app].
    now replace (S off + n)%nat with (off + S n)%nat by lia.
Qed.

Lemma secure_memset_run st p c n d :
  heap st !! p = Some (Block d true) -> length d = n ->
  secure_memset p c n st =
    Some (p, set_heap
      (<[p := Block (replicate n (ascii_of_N (Z.to_N (c mod 256)))) true]>
         (heap st)) st).
Proof.
  intros Hp Hn. unfold secure_memset.
  rewrite (bind_Some _ _ _ _ _
             (secure_memset_loop_run p c n O d st Hp ltac:(lia))).
  unfold ret. cbn [take app Nat.add]. rewrite drop_ge by lia.
  now rewrite app_nil_r.
Qed.

Lemma memcpy_loop_run p src n : forall off d st,
  heap st !! p = Some (Block d true) ->
  (off + n <= length d)%nat -> (off + n <= length src)%nat ->
  memcpy_loop p src off n st =
    Some (tt, set_heap
      (<[p := Block (take off d ++ take n (drop off src) ++ drop (off + n) d)
                    true]> (heap st)) st).
Proof.
  induction n as [|n IH]; intros off d st Hp Hlen Hsrc; cbn [memcpy_loop].
  - rewrite Nat.add_0_r, take_0. cbn [app]. rewrite take_drop.
    rewrite list_insert_id by exact Hp. now rewrite set_heap_same.
  - destruct (src !! off) as [c|] eqn:Hc;
      [| apply lookup_ge_None in Hc; lia].
    rewrite (bind_Some _ _ _ _ _ (store_run st p off c d Hp ltac:(lia))).
    pose proof (lookup_lt_Some _ _ _ Hp) as Hlt.
    rewrite (IH (S off) (<[off := c]> d));
      [| cbn [heap set_heap]; now apply list_lookup_insert_eq
       | rewrite length_insert; lia | lia].
    rewrite set_heap_set_heap. cbn [heap set_heap].
    rewrite list_insert_insert_eq.
    rewrite (take_S_r _ _ c) by (apply list_lookup_insert_eq; lia).
    rewrite take_insert_ge by lia. rewrite drop_insert_lt by lia.
    rewrite <- app_assoc. rewrite (drop_S _ _ _ Hc). cbn [take app].
    now replace (S off + n)%nat with (off + S n)%nat by lia.
Qed.

Lemma strnlen_le_length s n : (strnlen s n <= String.length s)%nat.
Proof.
  revert s. induction n as [|n IH]; intros s; cbn [strnlen]; [lia|].
  destruct s as [|c s]; [simpl; lia|].
  destruct (ascii_dec c NUL); simpl; [lia|]. specialize (IH s). lia.
Qed.

Lemma length_list_ascii_of_string s :
  length (list_ascii_of_string s) = String.length s.
Proof. induction s as [|c s IH]; simpl; [reflexivity | now rewrite IH]. Qed.

Lemma take_strnlen_c_mem n s :
  take (strnlen s n) (c_mem s) = list_ascii_of_string (c_prefix n s).
Proof.
  unfold c_mem. revert s.
  induction n as [|n IH]; intros s; cbn [strnlen c_prefix]; [reflexivity|].
  destruct s as [|c s]; [reflexivity|].
  destruct (ascii_dec c NUL); [reflexivity|].
  cbn. now rewrite IH.
Qed.

Lemma length_tmp_buffer passwd : length (tmp_buffer passwd) = MAX_PASSWORD_LEN.
Proof.
  unfold tmp_buffer. rewrite length_app, length_replicate,
    length_list_ascii_of_string, <- strnlen_prefix.
  rewrite strnlen_min. lia.
Qed.

Lemma get_tmp_passwd_run pw st junk :
  w_malloc W (trace st) MAX_PASSWORD_LEN = Some junk ->
  get_tmp_passwd (Some pw) st =
    Some (Some (length (heap st)),
          log (EvMalloc MAX_PASSWORD_LEN (Some (length (heap st))))
              (set_heap (heap st ++ [Block (tmp_buffer pw) true]) st)).
Proof.
  intros Hm. unfold get_tmp_passwd.
  unfold bind at 1. unfold malloc at 1. rewrite Hm.
  set (d0 := map junk (seq 0 MAX_PASSWORD_LEN)).
  set (st1 := log _ (set_heap (heap st ++ [Block d0 true]) st)).
  assert (heap st1 !! length (heap st) = Some (Block d0 true)) as Hp
    by (cbn [st1 heap log set_heap]; apply list_lookup_middle; reflexivity).
  rewrite (bind_Some _ _ _ _ _
    (secure_memset_run st1 _ 0 MAX_PASSWORD_LEN d0 Hp
       ltac:(unfold d0; now rewrite length_map, length_seq))).
  set (z := replicate MAX_PASSWORD_LEN _).
  set (st2 := set_heap _ st1).
  assert (heap st2 !! length (heap st) = Some (Block z true)) as Hp2.
  { cbn [st2 heap set_heap]. apply list_lookup_insert_eq.
    eapply lookup_lt_Some, Hp. }
  unfold memcpy.
  rewrite (bind_Some _ _ _ _ _
    (memcpy_loop_run _ (c_mem pw) (strnlen pw MAX_PASSWORD_LEN) O z st2 Hp2
       ltac:(unfold z; rewrite length_replicate, strnlen_min; lia)
       ltac:(unfold c_mem; rewrite length_app, length_list_ascii_of_string;
             pose proof (strnlen_le_length pw MAX_PASSWORD_LEN);
             cbn [length]; lia))).
  unfold ret. do 2 f_equal. subst st2 st1. cbn [heap set_heap log].
  rewrite list_insert_insert_eq, insert_app_r_alt by lia.
  rewrite Nat.sub_diag. cbn [insert list_insert].
  rewrite take_0, drop_0, Nat.add_0_l. cbn [app].
  rewrite take_strnlen_c_mem. unfold z. rewrite drop_replicate.
  now destruct st.
Qed.

Lemma get_tmp_passwd_oom pw st :
  w_malloc W (trace st) MAX_PASSWORD_LEN = None ->
  get_tmp_passwd (Some pw) st =
    Some (None, log (EvMalloc MAX_PASSWORD_LEN None) st).
Proof.
  intros Hm. unfold get_tmp_passwd, bind, malloc. now rewrite Hm.
Qed.

(** ** The readiness wait and the library load *)

Lemma polls_app ev1 ev2 : polls (ev1 ++ ev2) = (polls ev1 + polls ev2)%nat.
Proof. unfold polls. now rewrite List.filter_app, length_app. Qed.

Lemma is_qseecom_up_loop_run n : forall st,
  exists r ev,
    is_qseecom_up_loop n st = Some (r, logs ev st) /\
    Forall (fun e => is_poll e = true \/ exists us, e = EvUsleep us) ev /\
    (r = 0 \/ r = 1) /\
    (r = 0 -> polls ev = n) /\
    ((4 < PROPERTY_VALUE_MAX)%nat -> never_ready ev -> r = 0).
Proof.
  induction n as [|n IH]; intros st.
  - exists 0, []. repeat split; auto.
  - cbn [is_qseecom_up_loop]. unfold bind at 1. unfold property_get at 1.
    set (v := match w_property W (trace st) "sys.keymaster.loaded" with
              | Some v => v
              | None => ""
              end).
    cbn [snd].
    destruct (strncmp v "true" PROPERTY_VALUE_MAX =? 0) eqn:Hcmp.
    + exists 1, [EvPropertyGet "sys.keymaster.loaded" v].
      repeat split; auto; try discriminate.
      intros Hmax Hnever. exfalso.
      apply Forall_inv in Hnever. rewrite strncmp_true in Hcmp by exact Hmax.
      cbn in Hnever. rewrite Hcmp in Hnever. discriminate.
    + unfold bind at 1. unfold usleep, modify.
      destruct (IH (log (EvUsleep 100000)
                     (log (EvPropertyGet "sys.keymaster.loaded" v) st)))
        as (r & ev & Hrun & Hev & Hr & Hpolls & Hnever).
      exists r, (ev ++ [EvUsleep 100000; EvPropertyGet "sys.keymaster.loaded" v]).
      rewrite logs_app.
      split; [exact Hrun|]. split; [|split; [exact Hr|split]].
      * apply Forall_app. split; [exact Hev|].
        constructor; [right; now eexists|].
        constructor; [left; reflexivity | constructor].
      * intros H0. rewrite polls_app, (Hpolls H0).
        change (polls [_; _]) with 1%nat. lia.
      * intros Hmax Hn. apply Hnever; [exact Hmax|].
        now apply Forall_app in Hn as [Hn _].
Qed.

Lemma wait_step_is_load_step e :
  is_poll e = true \/ (exists us, e = EvUsleep us) -> is_load_step e = true.
Proof.
  intros [H|[us ->]]; [|reflexivity]. destruct e; try discriminate. exact H.
Qed.

(** A load that gave up after the wait: the flag is still 0. *)
Local Ltac load_gave_up evs ev0 Ht Hh Hl Hz Hls Hready :=
  eexists _, _, (evs ++ ev0); split; [reflexivity|];
  cbn [loaded_library trace heap log set_dl_pending set_qseecom_create_key
       set_qseecom_update_key set_qseecom_wipe_key set_loaded_library];
  rewrite Ht, Hh, Hl;
  split; [reflexivity|]; split; [reflexivity|]; split; [reflexivity|];
  split; [intros Hnz; contradiction|]; intros _;
  split; [apply Forall_app; split; [repeat constructor | exact Hls]|];
  split; [left; exact Hz|];
  intros Hmax Hn; exfalso; exact (Hready _ Hn Hmax).

Lemma load_qseecom_library_run st :
  exists r st' ev,
    load_qseecom_library st = Some (r, st') /\
    r = loaded_library st' /\
    trace st' = ev ++ trace st /\
    heap st' = heap st /\
    (loaded_library st <> 0 -> st' = st /\ ev = []) /\
    (loaded_library st = 0 ->
       Forall (fun e => is_load_step e = true) ev /\
       (loaded_library st' = 0 \/
        loaded_library st' = 1 /\ resolved_in_order ev st') /\
       ((4 < PROPERTY_VALUE_MAX)%nat -> never_ready ev ->
        loaded_library st' = 0 /\ polls ev = CRYPTFS_HW_UP_CHECK_COUNT)).
Proof.
  unfold load_qseecom_library. unfold bind at 1. unfold get at 1.
  destruct (Z.eqb_spec (loaded_library st) 0) as [Hz|Hnz]; cbn [negb].
  2:{ exists (loaded_library st), st, []. repeat split; auto. contradiction. }
  destruct (is_qseecom_up_loop_run CRYPTFS_HW_UP_CHECK_COUNT st)
    as (up & ev0 & Hup & Hev0 & Hr & Hpolls & Hnever).
  fold is_qseecom_up in Hup. rewrite (bind_Some _ _ _ _ _ Hup).
  assert (Forall (fun e => is_load_step e = true) ev0) as Hls
    by (eapply Forall_impl; [exact Hev0 | apply wait_step_is_load_step]).
  destruct Hr as [-> | ->]; cbn [Z.eqb].
  { exists 0, (logs ev0 st), ev0. unfold ret.
    rewrite trace_logs, heap_logs, loaded_library_logs.
    repeat split; auto; try contradiction. }
  assert (forall ev, never_ready (ev ++ ev0) -> (4 < PROPERTY_VALUE_MAX)%nat ->
                     False) as Hready.
  { intros ev Hn Hmax. apply Forall_app in Hn as [_ Hn].
    specialize (Hnever Hmax Hn). discriminate. }
  pose proof (trace_logs ev0 st) as Ht.
  pose proof (heap_logs ev0 st) as Hh.
  pose proof (loaded_library_logs ev0 st) as Hl.
  set (s0 := logs ev0 st) in *. clearbody s0.
  unfold bind, dlopen, dlerror, dlsym, modify, dlclose, get, ret, fault.
  cbn [trace log].
  destruct (w_dlopen W (trace s0) QSEECOM_LIBRARY_NAME) as [h|] eqn:Hopen.
  2:{ load_gave_up [EvDlopen QSEECOM_LIBRARY_NAME None]
        ev0 Ht Hh Hl Hz Hls Hready. }
  cbn [trace log set_dl_pending].
  destruct (w_dlsym W _ h "QSEECom_create_key") as [a1|m1] eqn:Hs1.
  2:{ load_gave_up [EvDlclose h;
                    EvDlsym h "QSEECom_create_key" (DlError m1);
                    EvDlopen QSEECOM_LIBRARY_NAME (Some h)]
        ev0 Ht Hh Hl Hz Hls Hready. }
  cbn [trace log set_dl_pending set_qseecom_create_key dl_pending].
  destruct (w_dlsym W _ h "QSEECom_update_key_user_info") as [a2|m2] eqn:Hs2.
  2:{ load_gave_up [EvDlclose h;
                    EvDlsym h "QSEECom_update_key_user_info" (DlError m2);
                    EvDlsym h "QSEECom_create_key" (DlFound a1);
                    EvDlopen QSEECOM_LIBRARY_NAME (Some h)]
        ev0 Ht Hh Hl Hz Hls Hready. }
  cbn [trace log set_dl_pending set_qseecom_create_key
       set_qseecom_update_key dl_pending].
  destruct (w_dlsym W _ h "QSEECom_wipe_key") as [a3|m3] eqn:Hs3.
  2:{ load_gave_up [EvDlclose h;
                    EvDlsym h "QSEECom_wipe_key" (DlError m3);
                    EvDlsym h "QSEECom_update_key_user_info" (DlFound a2);
                    EvDlsym h "QSEECom_create_key" (DlFound a1);
                    EvDlopen QSEECOM_LIBRARY_NAME (Some h)]
        ev0 Ht Hh Hl Hz Hls Hready. }
  eexists _, _, ([EvDlsym h "QSEECom_wipe_key" (DlFound a3);
                  EvDlsym h "QSEECom_update_key_user_info" (DlFound a2);
                  EvDlsym h "QSEECom_create_key" (DlFound a1);
                  EvDlopen QSEECOM_LIBRARY_NAME (Some h)] ++ ev0).
  split; [reflexivity|].
  cbn [loaded_library trace heap log set_dl_pending set_qseecom_create_key
       set_qseecom_update_key set_qseecom_wipe_key set_loaded_library
       qseecom_create_key qseecom_update_key qseecom_wipe_key].
  rewrite Ht, Hh.
  split; [reflexivity|]. split; [reflexivity|]. split; [reflexivity|].
  split; [intros Hnz; contradiction|]. intros _.
  split; [apply Forall_app; split; [repeat constructor | exact Hls]|].
  split.
  - right. split; [reflexivity|].
    exists h, a1, a2, a3, ev0. repeat split. exact Hev0.
  - intros Hmax Hn. exfalso. exact (Hready _ Hn Hmax).
Qed.

(** ** The three key operations *)

Lemma run_op_unfold op :
  run_op op =
    (let* loaded := load_qseecom_library in
     if negb (loaded =? 0)
     then let* st := get in
          call_ptr (op_pointer op st) (op_usage op) (op_bufs op)
     else ret (op_sentinel op)).
Proof. destruct op; reflexivity. Qed.

Lemma consistent_pointer op st :
  library_consistent st = true -> loaded_library st <> 0 ->
  exists f, op_pointer op st = Some f.
Proof.
  unfold library_consistent, pointers_valid. intros Hc Hl.
  apply Z.eqb_neq in Hl. rewrite Hl in Hc. cbn in Hc.
  destruct op; cbn [op_pointer];
    destruct (qseecom_create_key st), (qseecom_update_key st),
      (qseecom_wipe_key st); try discriminate; eexists; reflexivity.
Qed.

Lemma resolved_consistent ev st :
  resolved_in_order ev st -> pointers_valid st = true.
Proof.
  intros (h & a1 & a2 & a3 & w & _ & _ & H1 & H2 & H3).
  unfold pointers_valid. now rewrite H1, H2, H3.
Qed.

Lemma load_keeps_consistent st st' (ev : list event) :
  library_consistent st = true ->
  (loaded_library st <> 0 -> st' = st /\ ev = []) ->
  (loaded_library st = 0 ->
   loaded_library st' = 0 \/
   loaded_library st' = 1 /\ resolved_in_order ev st') ->
  library_consistent st' = true.
Proof.
  intros Hc Hnz Hz.
  destruct (Z.eq_dec (loaded_library st) 0) as [E|E].
  - unfold library_consistent.
    destruct (Hz E) as [->|[_ Hr]]; [reflexivity|].
    rewrite (resolved_consistent _ _ Hr). apply orb_true_r.
  - now destruct (Hnz E) as [-> _].
Qed.

Lemma run_op_run op st bufs :
  library_consistent st = true ->
  read_bufs (heap st) (op_bufs op) = Some bufs ->
  exists r st' load_ev, op_outcome op st bufs r st' load_ev.
Proof.
  unfold op_outcome. intros Hc Hbufs. rewrite run_op_unfold.
  destruct (load_qseecom_library_run st)
    as (r0 & st1 & ev & Hrun & -> & Ht & Hh & Hnz & Hz).
  rewrite (bind_Some _ _ _ _ _ Hrun).
  assert (library_consistent st1 = true) as Hc1.
  { eapply load_keeps_consistent; [exact Hc | exact Hnz |].
    intros E. now destruct (Hz E) as (_ & H & _). }
  destruct (Z.eqb_spec (loaded_library st1) 0) as [E|E]; cbn [negb].
  - exists (op_sentinel op), st1, ev. unfold ret.
    split; [reflexivity|]. split; [exact Hh|]. split; [exact Hc1|].
    split; [|split; [|split]].
    + intros N. destruct (Hnz N) as [-> ->]. split; [reflexivity|].
      apply same_library_refl.
    + intros Z0. destruct (Hz Z0) as (Hls & _ & Hn).
      split; [exact Hls|]. split; [intros N; contradiction | exact Hn].
    + intros _. split; [reflexivity | exact Ht].
    + intros N. contradiction.
  - destruct (consistent_pointer op st1 Hc1 E) as [f Hf].
    unfold bind, get, call_ptr. rewrite Hf, Hh, Hbufs, Ht.
    eexists _, _, ev. split; [reflexivity|].
    cbn [heap log loaded_library trace]. rewrite ?Ht.
    split; [exact Hh|]. split; [exact Hc1|].
    split; [|split; [|split]].
    + intros N. destruct (Hnz N) as [-> ->]. split; [reflexivity|].
      apply (same_library_logs [_] st).
    + intros Z0. destruct (Hz Z0) as (Hls & [Hl|[_ Hr]] & Hn);
        [contradiction|].
      split; [exact Hls|]. split; [intros _; exact Hr | exact Hn].
    + intros Z0. contradiction.
    + intros _. exists f. split; [|split; reflexivity].
      now destruct op.
Qed.

(** ** [set_key] *)

Lemma free_run st p d :
  heap st !! p = Some (Block d true) ->
  free (Some p) st =
    Some (tt, log (EvFree p) (set_heap (<[p := Block d false]> (heap st)) st)).
Proof. intros Hp. unfold free. now rewrite Hp. Qed.

Lemma hw_mode_test mode :
  is_hw_disk_encryption mode <> 0 ->
  negb (is_hw_disk_encryption mode =? 0) = true.
Proof. intros H. apply Z.eqb_neq in H. now rewrite H. Qed.

Lemma zero_byte : ascii_of_N (Z.to_N (0 mod 256)) = NUL.
Proof. reflexivity. Qed.

Lemma set_hw_device_encryption_key_run pw mode st junk :
  is_hw_disk_encryption mode <> 0 ->
  w_malloc W (trace st) MAX_PASSWORD_LEN = Some junk ->
  library_consistent st = true ->
  let p := length (heap st) in
  let st1 := log (EvMalloc MAX_PASSWORD_LEN (Some p))
               (set_heap (heap st ++ [Block (tmp_buffer pw) true]) st) in
  exists storage_type ice_ev r st3 load_ev,
    is_ice_enabled st1 = Some (storage_type, logs ice_ev st1) /\
    no_call ice_ev /\ no_load_step ice_ev /\
    op_outcome (CreateKey (backend_usage storage_type) p) (logs ice_ev st1)
      [tmp_buffer pw] r st3 load_ev /\
    set_hw_device_encryption_key (Some pw) mode st =
      Some (r, log (EvFree p)
                 (set_heap (heap st ++ [Block (replicate MAX_PASSWORD_LEN NUL) false])
                    st3)).
Proof.
  intros Hmode Hm Hc p st1.
  destruct (map_usage_run CRYPTFS_HW_KM_USAGE_DISK_ENCRYPTION st1)
    as (storage & ice_ev & Hice & Hmap & Hnc & Hnl).
  cbn [Z.eqb CRYPTFS_HW_KM_USAGE_DISK_ENCRYPTION Pos.eqb] in Hmap.
  assert (heap (logs ice_ev st1) !! p = Some (Block (tmp_buffer pw) true)) as Hp.
  { rewrite heap_logs. cbn [st1 heap log set_heap].
    now apply list_lookup_middle. }
  destruct (run_op_run (CreateKey (backend_usage storage) p)
              (logs ice_ev st1) [tmp_buffer pw])
    as (r & st3 & load_ev & Hop).
  { rewrite (same_library_consistent st1) by apply same_library_logs.
    exact Hc. }
  { cbn [op_bufs read_bufs]. now rewrite Hp. }
  exists storage, ice_ev, r, st3, load_ev.
  split; [exact Hice|]. split; [exact Hnc|]. split; [exact Hnl|].
  split; [exact Hop|].
  destruct Hop as (Hrun & Hh & _).
  unfold set_hw_device_encryption_key, set_key.
  rewrite (hw_mode_test _ Hmode).
  rewrite (bind_Some _ _ _ _ _ (get_tmp_passwd_run pw st junk Hm)).
  fold p st1. unfold bind at 1. cbn [get_tmp_passwd ret].
  cbn [Z.eqb SET_HW_DISK_ENC_KEY UPDATE_HW_DISK_ENC_KEY Pos.eqb].
  assert ((let* usage := map_usage CRYPTFS_HW_KM_USAGE_DISK_ENCRYPTION in
           cryptfs_hw_create_key usage p) st1 = Some (r, st3)) as Hbody.
  { rewrite (bind_Some _ _ _ _ _ Hmap). exact Hrun. }
  rewrite (bind_Some _ _ _ _ _ Hbody).
  assert (heap st3 !! p = Some (Block (tmp_buffer pw) true)) as Hp3
    by (now rewrite Hh).
  rewrite (bind_Some _ _ _ _ _
    (secure_memset_run st3 p 0 MAX_PASSWORD_LEN _ Hp3 (length_tmp_buffer pw))).
  rewrite zero_byte.
  set (z := replicate MAX_PASSWORD_LEN NUL).
  assert (heap (set_heap (<[p := Block z true]> (heap st3)) st3) !! p
          = Some (Block z true)) as Hpz.
  { cbn [heap set_heap]. apply list_lookup_insert_eq.
    eapply lookup_lt_Some, Hp3. }
  rewrite (bind_Some _ _ _ _ _ (free_run _ p z Hpz)).
  unfold bind, free, ret. cbn [heap set_heap log].
  rewrite list_insert_insert_eq, Hh, heap_logs. cbn [st1 heap log set_heap].
  rewrite insert_app_r_alt by (unfold p; lia).
  replace (p - length (heap st))%nat with O by (unfold p; lia).
  reflexivity.
Qed.

Lemma update_hw_device_encryption_key_run old new mode st junk1 junk2 :
  is_hw_disk_encryption mode <> 0 ->
  w_malloc W (trace st) MAX_PASSWORD_LEN = Some junk1 ->
  w_malloc W (EvMalloc MAX_PASSWORD_LEN (Some (length (heap st))) :: trace st)
    MAX_PASSWORD_LEN = Some junk2 ->
  library_consistent st = true ->
  let p := length (heap st) in
  let cp := S p in
  let st2 := log (EvMalloc MAX_PASSWORD_LEN (Some cp))
               (log (EvMalloc MAX_PASSWORD_LEN (Some p))
                  (set_heap (heap st ++ [Block (tmp_buffer new) true;
                                         Block (tmp_buffer old) true]) st)) in
  exists storage_type ice_ev r st3 load_ev,
    is_ice_enabled st2 = Some (storage_type, logs ice_ev st2) /\
    no_call ice_ev /\ no_load_step ice_ev /\
    op_outcome (UpdateKey (backend_usage storage_type) cp p) (logs ice_ev st2)
      [tmp_buffer old; tmp_buffer new] r st3 load_ev /\
    update_hw_device_encryption_key (Some old) (Some new) mode st =
      Some (r, log (EvFree cp) (log (EvFree p)
                 (set_heap (heap st ++ [Block (replicate MAX_PASSWORD_LEN NUL) false;
                                        Block (replicate MAX_PASSWORD_LEN NUL) false])
                    st3))).
Proof.
  intros Hmode Hm1 Hm2 Hc p cp st2.
  assert (Hpcp : p <> cp) by (unfold cp; lia).
  destruct (map_usage_run CRYPTFS_HW_KM_USAGE_DISK_ENCRYPTION st2)
    as (storage & ice_ev & Hice & Hmap & Hnc & Hnl).
  cbn [Z.eqb CRYPTFS_HW_KM_USAGE_DISK_ENCRYPTION Pos.eqb] in Hmap.
  assert (heap st2 = heap st ++ [Block (tmp_buffer new) true;
                                 Block (tmp_buffer old) true]) as Hh2
    by reflexivity.
  assert (heap st2 !! p = Some (Block (tmp_buffer new) true)) as Hp.
  { rewrite Hh2. now apply list_lookup_middle. }
  assert (heap st2 !! cp = Some (Block (tmp_buffer old) true)) as Hcp.
  { rewrite Hh2. change (heap st ++ [_; _]) with
      (heap st ++ [Block (tmp_buffer new) true] ++ [Block (tmp_buffer old) true]).
    rewrite app_assoc. apply list_lookup_middle.
    rewrite length_app. unfold cp, p. cbn [length]. lia. }
  destruct (run_op_run (UpdateKey (backend_usage storage) cp p)
              (logs ice_ev st2) [tmp_buffer old; tmp_buffer new])
    as (r & st3 & load_ev & Hop).
  { rewrite (same_library_consistent st2) by apply same_library_logs.
    exact Hc. }
  { cbn [op_bufs read_bufs]. rewrite heap_logs. now rewrite Hcp, Hp. }
  exists storage, ice_ev, r, st3, load_ev.
  split; [exact Hice|]. split; [exact Hnc|]. split; [exact Hnl|].
  split; [exact Hop|].
  destruct Hop as (Hrun & Hh & _). rewrite heap_logs in Hh.
  unfold update_hw_device_encryption_key, set_key.
  rewrite (hw_mode_test _ Hmode).
  rewrite (bind_Some _ _ _ _ _ (get_tmp_passwd_run new st junk1 Hm1)).
  fold p.
  set (st1 := log (EvMalloc MAX_PASSWORD_LEN (Some p)) _).
  rewrite (bind_Some _ _ _ _ _ (get_tmp_passwd_run old st1 junk2 Hm2)).
  replace (length (heap st1)) with cp
    by (cbn [st1 heap log set_heap]; rewrite length_app; cbn [length];
        unfold cp, p; lia).
  replace (log (EvMalloc MAX_PASSWORD_LEN (Some cp))
             (set_heap (heap st1 ++ [Block (tmp_buffer old) true]) st1))
    with st2
    by (unfold st2, st1; cbn [heap log set_heap];
        rewrite <- app_assoc; now destruct st).
  cbn [Z.eqb SET_HW_DISK_ENC_KEY UPDATE_HW_DISK_ENC_KEY Pos.eqb].
  assert (heap st3 !! cp = Some (Block (tmp_buffer old) true)) as Hcp3
    by (now rewrite Hh).
  assert ((let* usage := map_usage CRYPTFS_HW_KM_USAGE_DISK_ENCRYPTION in
           let* err := cryptfs_hw_update_key usage cp p in
           let* _ := secure_memset cp 0 MAX_PASSWORD_LEN in
           ret err) st2
          = Some (r, set_heap
                       (<[cp := Block (replicate MAX_PASSWORD_LEN NUL) true]>
                          (heap st3)) st3)) as Hbody.
  { rewrite (bind_Some _ _ _ _ _ Hmap).
    change (cryptfs_hw_update_key (backend_usage storage) cp p)
      with (run_op (UpdateKey (backend_usage storage) cp p)).
    rewrite (bind_Some _ _ _ _ _ Hrun).
    rewrite (bind_Some _ _ _ _ _
      (secure_memset_run st3 cp 0 MAX_PASSWORD_LEN _ Hcp3
         (length_tmp_buffer old))).
    now rewrite zero_byte. }
  rewrite (bind_Some _ _ _ _ _ Hbody).
  set (z := replicate MAX_PASSWORD_LEN NUL) in *.
  set (st4 := set_heap _ st3).
  assert (heap st4 !! p = Some (Block (tmp_buffer new) true)) as Hp4.
  { cbn [st4 heap set_heap]. rewrite list_lookup_insert_ne by lia.
    now rewrite Hh. }
  rewrite (bind_Some _ _ _ _ _
    (secure_memset_run st4 p 0 MAX_PASSWORD_LEN _ Hp4 (length_tmp_buffer new))).
  rewrite zero_byte. fold z.
  set (st5 := set_heap _ st4).
  assert (p < length (heap st4))%nat as Hlt by (eapply lookup_lt_Some, Hp4).
  assert (heap st5 !! p = Some (Block z true)) as Hp5.
  { cbn [st5 heap set_heap]. now apply list_lookup_insert_eq. }
  rewrite (bind_Some _ _ _ _ _ (free_run st5 p z Hp5)).
  set (st6 := log (EvFree p) _).
  assert (heap st6 !! cp = Some (Block z true)) as Hcp6.
  { cbn [st6 st5 st4 heap set_heap log].
    rewrite !list_lookup_insert_ne by lia.
    apply list_lookup_insert_eq. eapply lookup_lt_Some, Hcp3. }
  rewrite (bind_Some _ _ _ _ _ (free_run st6 cp z Hcp6)).
  unfold ret. do 2 f_equal.
  cbn [st6 st5 st4 heap set_heap log].
  rewrite list_insert_insert_eq.
  rewrite (list_insert_insert_ne _ cp p) by lia.
  rewrite list_insert_insert_eq.
  rewrite Hh, Hh2.
  change (heap st ++ [Block (tmp_buffer new) true; Block (tmp_buffer old) true])
    with (heap st ++ [Block (tmp_buffer new) true] ++ [Block (tmp_buffer old) true]).
  rewrite app_assoc.
  rewrite (insert_app_r_alt _ _ cp)
    by (rewrite length_app; unfold cp, p; cbn [length]; lia).
  replace (cp - length (heap st ++ [Block (tmp_buffer new) true]))%nat with O
    by (rewrite length_app; unfold cp, p; cbn [length]; lia).
  cbn [insert list_insert]. rewrite <- app_assoc.
  rewrite (insert_app_r_alt _ _ p) by (unfold p; lia).
  replace (p - length (heap st))%nat with O by (unfold p; lia).
  reflexivity.
Qed.

(** ** The library handle state across whole calls *)

Lemma lib_step_refl st : lib_step st st.
Proof. split; [auto | intros _; apply same_library_refl]. Qed.

Lemma lib_step_trans st1 st2 st3 :
  lib_step st1 st2 -> lib_step st2 st3 -> lib_step st1 st3.
Proof.
  intros [Hc1 Hs1] [Hc2 Hs2]. split; [auto|].
  intros Hl. specialize (Hs1 Hl).
  eapply same_library_trans; [exact Hs1|]. apply Hs2.
  destruct Hs1 as [-> _]. exact Hl.
Qed.

Lemma same_library_step st st' : same_library st st' -> lib_step st st'.
Proof.
  intros Hs. split; [|auto].
  now rewrite (same_library_consistent _ _ Hs).
Qed.

Lemma bind_inv {A B} (m : M A) (k : A -> M B) st b st' :
  bind m k st = Some (b, st') ->
  exists a st1, m st = Some (a, st1) /\ k a st1 = Some (b, st').
Proof.
  unfold bind. destruct (m st) as [[a st1]|]; [|discriminate].
  intros H. now exists a, st1.
Qed.

Lemma preserves_ret {A} (a : A) : preserves (ret a).
Proof. intros st b st' [= _ <-]. apply lib_step_refl. Qed.

Lemma preserves_fault {A} : preserves (@fault A).
Proof. intros st b st' [=]. Qed.

Lemma preserves_bind {A B} (m : M A) (k : A -> M B) :
  preserves m -> (forall a, preserves (k a)) -> preserves (bind m k).
Proof.
  intros Hm Hk st b st' H.
  apply bind_inv in H as (a & st1 & H1 & H2).
  eapply lib_step_trans; [eapply Hm, H1 | eapply Hk, H2].
Qed.

Lemma preserves_store p off c : preserves (store p off c).
Proof.
  intros st a st'. unfold store.
  destruct (heap st !! p) as [b|]; [|discriminate].
  destruct (live b && _); [|discriminate].
  intros [= _ <-]. apply same_library_step. repeat split.
Qed.

Lemma preserves_free p : preserves (free p).
Proof.
  destruct p as [a|]; [|apply preserves_ret].
  intros st x st'. unfold free.
  destruct (heap st !! a) as [b|]; [|discriminate].
  destruct (live b); [|discriminate].
  intros [= _ <-]. apply same_library_step. repeat split.
Qed.

Lemma preserves_malloc n : preserves (malloc n).
Proof.
  intros st a st'. unfold malloc.
  destruct (w_malloc W (trace st) n); intros [= _ <-];
    apply same_library_step; repeat split.
Qed.

Lemma preserves_secure_memset v c n : preserves (secure_memset v c n).
Proof.
  unfold secure_memset. apply preserves_bind; [|intros; apply preserves_ret].
  generalize O. induction n as [|n IH]; intros off; cbn [secure_memset_loop].
  - apply preserves_ret.
  - apply preserves_bind; [apply preserves_store | intros; apply IH].
Qed.

Lemma preserves_memcpy dst src n : preserves (memcpy dst src n).
Proof.
  unfold memcpy. generalize (c_mem src) as l. generalize O.
  induction n as [|n IH]; intros off l; cbn [memcpy_loop].
  - apply preserves_ret.
  - destruct (l !! off); [|apply preserves_fault].
    apply preserves_bind; [apply preserves_store | intros; apply IH].
Qed.

Lemma preserves_get_tmp_passwd passwd : preserves (get_tmp_passwd passwd).
Proof.
  unfold get_tmp_passwd. destruct passwd as [pw|]; [|apply preserves_ret].
  apply preserves_bind; [apply preserves_malloc|].
  intros [p|]; [|apply preserves_ret].
  apply preserves_bind; [apply preserves_secure_memset | intros _].
  apply preserves_bind; [apply preserves_memcpy | intros _].
  apply preserves_ret.
Qed.

Lemma preserves_logs {A} (m : M A) :
  (forall st, exists a ev, m st = Some (a, logs ev st)) -> preserves m.
Proof.
  intros H st a st' Hrun. destruct (H st) as (a' & ev & E).
  rewrite E in Hrun. injection Hrun as _ <-.
  apply same_library_step, same_library_logs.
Qed.

Lemma preserves_is_ice_enabled : preserves is_ice_enabled.
Proof.
  apply preserves_logs. intros st.
  destruct (is_ice_enabled_run st) as (r & ev & H & _). eauto.
Qed.

Lemma preserves_map_usage usage : preserves (map_usage usage).
Proof.
  apply preserves_logs. intros st.
  destruct (map_usage_run usage st) as (r & ev & _ & H & _). eauto.
Qed.

Lemma load_step st r st' :
  load_qseecom_library st = Some (r, st') -> lib_step st st'.
Proof.
  destruct (load_qseecom_library_run st)
    as (r0 & st1 & ev & Hrun & _ & _ & _ & Hnz & Hz).
  rewrite Hrun. intros [= _ <-]. split.
  - intros Hc. eapply load_keeps_consistent; [exact Hc | exact Hnz |].
    intros E. now destruct (Hz E) as (_ & H & _).
  - intros N. destruct (Hnz N) as [-> _]. apply same_library_refl.
Qed.

Lemma preserves_call_ptr f usage bufs : preserves (call_ptr f usage bufs).
Proof.
  intros st a st'. unfold call_ptr.
  destruct f; [|discriminate].
  destruct (read_bufs _ _); [|discriminate].
  intros [= _ <-]. apply same_library_step. repeat split.
Qed.

Lemma preserves_run_op op : preserves (run_op op).
Proof.
  rewrite run_op_unfold. apply preserves_bind; [exact load_step|].
  intros loaded. destruct (negb _); [|apply preserves_ret].
  apply preserves_bind; [intros st a st' [= _ <-]; apply lib_step_refl|].
  intros st. apply preserves_call_ptr.
Qed.

Lemma preserves_set_key cur pw mode operation :
  preserves (set_key cur pw mode operation).
Proof.
  unfold set_key. destruct (negb _); [|apply preserves_ret].
  apply preserves_bind; [apply preserves_get_tmp_passwd | intros tmp].
  apply preserves_bind; [apply preserves_get_tmp_passwd | intros tmpc].
  destruct tmp as [p|]; [|apply preserves_ret].
  apply preserves_bind.
  - destruct (operation =? UPDATE_HW_DISK_ENC_KEY).
    + destruct tmpc as [cp|]; [|apply preserves_ret].
      apply preserves_bind; [apply preserves_map_usage | intros usage].
      apply preserves_bind;
        [apply (preserves_run_op (UpdateKey usage cp p)) | intros err].
      apply preserves_bind; [apply preserves_secure_memset | intros _].
      apply preserves_ret.
    + destruct (operation =? SET_HW_DISK_ENC_KEY); [|apply preserves_ret].
      apply preserves_bind; [apply preserves_map_usage | intros usage].
      apply (preserves_run_op (CreateKey usage p)).
  - intros err.
    apply preserves_bind; [apply preserves_secure_memset | intros _].
    apply preserves_bind; [apply preserves_free | intros _].
    apply preserves_bind; [apply preserves_free | intros _].
    apply preserves_ret.
Qed.

Lemma preserves_run_api c : preserves (run_api c).
Proof.
  destruct c; cbn [run_api].
  - apply preserves_set_key.
  - apply preserves_set_key.
  - unfold clear_hw_device_encryption_key.
    apply preserves_bind; [apply preserves_map_usage | intros usage].
    apply (preserves_run_op (WipeKey usage)).
  - apply preserves_is_ice_enabled.
  - apply preserves_logs. intros st.
    unfold should_use_keymaster, get_keymaster_version, bind,
      hw_get_module_by_class, ret. cbn [fst snd].
    destruct (negb _), (_ =? KEYMASTER_MODULE_API_VERSION_0_3);
      eexists _, [_]; reflexivity.
Qed.

Lemma reachable_consistent st : reachable st -> library_consistent st = true.
Proof.
  induction 1 as [|c st r st' _ IH Hrun]; [reflexivity|].
  now apply (preserves_run_api c st r st' Hrun).
Qed.

(** ** Events of a whole call *)

Lemma load_step_not_call e : is_load_step e = true -> is_call e = false.
Proof. destruct e; cbn; congruence. Qed.

Lemma load_steps_no_call ev :
  Forall (fun e => is_load_step e = true) ev -> no_call ev.
Proof.
  intros H. eapply Forall_impl; [exact H | apply load_step_not_call].
Qed.

Lemma no_load_step_polls ev : no_load_step ev -> polls ev = O.
Proof.
  unfold polls. induction 1 as [|e ev He _ IH]; [reflexivity|].
  cbn [List.filter].
  destruct e; cbn [is_poll]; try exact IH.
  cbn [is_load_step] in He. rewrite He. exact IH.
Qed.

Lemma no_call_carry bufs ev : no_call ev -> calls_carry bufs ev.
Proof.
  intros H. eapply Forall_impl; [exact H|].
  intros e He f usage bs status ->. discriminate.
Qed.

Lemma op_load_no_call op st bufs r st' load_ev :
  op_outcome op st bufs r st' load_ev -> no_call load_ev.
Proof.
  intros (_ & _ & _ & Hnz & Hz & _).
  destruct (Z.eq_dec (loaded_library st) 0) as [E|E].
  - apply load_steps_no_call. now destruct (Hz E).
  - destruct (Hnz E) as [-> _]. constructor.
Qed.

(** The trace of a key operation: the load, then at most one call. *)
Lemma op_outcome_trace op st bufs r st' load_ev :
  op_outcome op st bufs r st' load_ev ->
  exists call_ev,
    trace st' = call_ev ++ load_ev ++ trace st /\
    calls_carry bufs call_ev /\
    (loaded_library st' = 0 -> call_ev = [] /\ r = op_sentinel op) /\
    (loaded_library st' <> 0 ->
     exists f, op_pointer op st' = Some f /\
               call_ev = [EvCall f (op_usage op) bufs r] /\
               r = w_call W (load_ev ++ trace st) f (op_usage op) bufs).
Proof.
  intros (_ & _ & _ & _ & _ & Hz' & Hnz').
  destruct (Z.eq_dec (loaded_library st') 0) as [E|E].
  - destruct (Hz' E) as [-> Ht]. exists [].
    split; [exact Ht|]. split; [constructor|].
    split; [auto | intros N; contradiction].
  - destruct (Hnz' E) as (f & Hf & Hr & Ht).
    exists [EvCall f (op_usage op) bufs r].
    split; [exact Ht|]. split.
    { constructor; [|constructor]. now intros ? ? ? ? [= _ _ <- _]. }
    split; [intros Z0; contradiction|]. intros _. now exists f.
Qed.

Lemma set_hw_device_encryption_key_events pw mode st junk :
  is_hw_disk_encryption mode <> 0 ->
  w_malloc W (trace st) MAX_PASSWORD_LEN = Some junk ->
  library_consistent st = true ->
  exists r st' ev,
    set_hw_device_encryption_key (Some pw) mode st = Some (r, st') /\
    trace st' = ev ++ trace st /\
    heap st' = heap st ++ [Block (replicate MAX_PASSWORD_LEN NUL) false] /\
    calls_carry [tmp_buffer pw] ev /\
    (loaded_library st = 0 -> (4 < PROPERTY_VALUE_MAX)%nat -> never_ready ev ->
     r = CRYPTFS_HW_CREATE_KEY_FAILED /\ no_call ev /\
     polls ev = CRYPTFS_HW_UP_CHECK_COUNT).
Proof.
  intros Hmode Hm Hc.
  destruct (set_hw_device_encryption_key_run pw mode st junk Hmode Hm Hc)
    as (storage & ice_ev & r & st3 & load_ev & _ & Hnc & Hnl & Hop & Hrun).
  pose proof (op_load_no_call _ _ _ _ _ _ Hop) as Hlc.
  destruct (op_outcome_trace _ _ _ _ _ _ Hop)
    as (call_ev & Ht & Hcarry & Hz' & Hnz').
  destruct Hop as (_ & _ & _ & _ & Hz & _).
  rewrite trace_logs in Ht. cbn [trace log set_heap] in Ht.
  set (p := length (heap st)) in *.
  eexists r, _, (EvFree p :: call_ev ++ load_ev ++ ice_ev
                   ++ [EvMalloc MAX_PASSWORD_LEN (Some p)]).
  split; [exact Hrun|]. cbn [trace heap log set_heap].
  split; [rewrite Ht; cbn [app]; now rewrite <- !app_assoc|].
  split; [reflexivity|].
  split.
  { constructor; [intros ? ? ? ? [=]|].
    apply Forall_app; split; [exact Hcarry|].
    apply Forall_app; split; [now apply no_call_carry|].
    apply Forall_app; split; [now apply no_call_carry|].
    constructor; [intros ? ? ? ? [=] | constructor]. }
  intros Hl Hmax Hn.
  apply Forall_cons in Hn as [_ Hn].
  apply Forall_app in Hn as [_ Hn]. apply Forall_app in Hn as [Hn _].
  rewrite loaded_library_logs in Hz.
  destruct (Hz Hl) as (_ & _ & Hwait).
  destruct (Hwait Hmax Hn) as [Hl3 Hpolls].
  destruct (Hz' Hl3) as [-> ->].
  split; [reflexivity|]. split.
  - constructor; [reflexivity|]. cbn [app].
    apply Forall_app; split; [exact Hlc|].
    apply Forall_app; split; [exact Hnc|]. repeat constructor.
  - change (EvFree p :: [] ++ load_ev ++ ice_ev ++ [EvMalloc MAX_PASSWORD_LEN (Some p)])
      with ([EvFree p] ++ load_ev ++ ice_ev ++ [EvMalloc MAX_PASSWORD_LEN (Some p)]).
    rewrite !polls_app, Hpolls, (no_load_step_polls _ Hnl).
    change (polls [EvFree p]) with O.
    change (polls [EvMalloc MAX_PASSWORD_LEN (Some p)]) with O. lia.
Qed.

(** ** The copy of the password *)

Lemma c_str_split n : forall s,
  exists rest,
    list_ascii_of_string (c_str s)
      = list_ascii_of_string (c_prefix n s) ++ rest /\
    length rest = (strlen s - n)%nat.
Proof.
  unfold strlen. induction n as [|n IH]; intros s.
  - exists (list_ascii_of_string (c_str s)).
    destruct s; cbn [c_prefix]; split; try reflexivity;
      rewrite length_list_ascii_of_string; lia.
  - destruct s as [|c s]; cbn [c_prefix c_str]; [now exists []|].
    destruct (ascii_dec c NUL); [now exists []|].
    destruct (IH s) as (rest & E & Hlen). exists rest.
    cbn [list_ascii_of_string String.length app]. now rewrite E.
Qed.

Lemma tmp_buffer_padded_copy passwd : padded_copy passwd (tmp_buffer passwd).
Proof.
  split; [apply length_tmp_buffer|]. split.
  - intros Hlong. destruct (c_str_split MAX_PASSWORD_LEN passwd)
      as (rest & E & Hlen).
    exists rest. split; [intros ->; cbn in Hlen; lia|].
    unfold tmp_buffer. rewrite strnlen_min.
    replace (MAX_PASSWORD_LEN - _)%nat with O by lia.
    cbn [replicate]. now rewrite app_nil_r.
  - intros Hshort. unfold tmp_buffer.
    rewrite strnlen_min, c_prefix_all by lia.
    now replace (Nat.min (strlen passwd) MAX_PASSWORD_LEN)
      with (strlen passwd) by lia.
Qed.

(** ** Calls that never get to a buffer or to the library *)

Lemma set_key_not_hw cur pw mode operation st :
  is_hw_disk_encryption mode = 0 ->
  set_key cur pw mode operation st = Some (-1, st).
Proof. intros H. unfold set_key. now rewrite H. Qed.

Lemma set_key_null cur mode operation st :
  exists st' ev,
    set_key cur None mode operation st = Some (-1, st') /\
    trace st' = ev ++ trace st /\ no_call ev /\
    (cur = None -> st' = st).
Proof.
  unfold set_key. destruct (negb _).
  2:{ exists st, []. repeat split. constructor. }
  unfold bind at 1. cbn [get_tmp_passwd ret].
  destruct cur as [old|].
  2:{ exists st, []. repeat split. constructor. }
  destruct (w_malloc W (trace st) MAX_PASSWORD_LEN) as [junk|] eqn:Hm.
  - rewrite (bind_Some _ _ _ _ _ (get_tmp_passwd_run old st junk Hm)).
    eexists _, [_]. split; [reflexivity|]. cbn [trace log set_heap].
    repeat split; try discriminate. repeat constructor.
  - rewrite (bind_Some _ _ _ _ _ (get_tmp_passwd_oom old st Hm)).
    eexists _, [_]. split; [reflexivity|]. cbn [trace log].
    repeat split; try discriminate. repeat constructor.
Qed.

(** [update] with no new password: the copy of the old one stays in the
    heap as it is, neither cleared nor freed. *)
Lemma update_null_keeps_old old mode st junk :
  is_hw_disk_encryption mode <> 0 ->
  w_malloc W (trace st) MAX_PASSWORD_LEN = Some junk ->
  update_hw_device_encryption_key (Some old) None mode st =
    Some (-1, log (EvMalloc MAX_PASSWORD_LEN (Some (length (heap st))))
                (set_heap (heap st ++ [Block (tmp_buffer old) true]) st)).
Proof.
  intros Hmode Hm. unfold update_hw_device_encryption_key, set_key.
  rewrite (hw_mode_test _ Hmode). unfold bind at 1. cbn [get_tmp_passwd ret].
  now rewrite (bind_Some _ _ _ _ _ (get_tmp_passwd_run old st junk Hm)).
Qed.

Lemma clear_hw_device_encryption_key_run st :
  library_consistent st = true ->
  exists storage_type ice_ev r st' load_ev,
    is_ice_enabled st = Some (storage_type, logs ice_ev st) /\
    no_call ice_ev /\ no_load_step ice_ev /\
    op_outcome (WipeKey (backend_usage storage_type)) (logs ice_ev st) []
      r st' load_ev /\
    clear_hw_device_encryption_key st = Some (r, st').
Proof.
  intros Hc.
  destruct (map_usage_run CRYPTFS_HW_KM_USAGE_DISK_ENCRYPTION st)
    as (storage & ice_ev & Hice & Hmap & Hnc & Hnl).
  cbn [Z.eqb CRYPTFS_HW_KM_USAGE_DISK_ENCRYPTION Pos.eqb] in Hmap.
  destruct (run_op_run (WipeKey (backend_usage storage)) (logs ice_ev st) [])
    as (r & st' & load_ev & Hop).
  { rewrite (same_library_consistent st) by apply same_library_logs.
    exact Hc. }
  { reflexivity. }
  exists storage, ice_ev, r, st', load_ev.
  repeat (split; [assumption|]).
  unfold clear_hw_device_encryption_key.
  rewrite (bind_Some _ _ _ _ _ Hmap). now destruct Hop.
Qed.

(** ** The mode test *)

Lemma is_hw_disk_encryption_cases mode :
  (is_hw_disk_encryption mode = 1 /\
   exists s, mode = Some s /\ c_str s = "aes-xts") \/
  (is_hw_disk_encryption mode = 0 /\
   ~ exists s, mode = Some s /\ c_str s = "aes-xts").
Proof.
  destruct mode as [s|]; cbn [is_hw_disk_encryption].
  - destruct (Z.eqb_spec (strcmp s "aes-xts") 0) as [E|E].
    + left. split; [reflexivity|]. exists s. split; [reflexivity|].
      now apply strcmp_zero in E.
    + right. split; [reflexivity|]. intros (s' & [= <-] & Hs).
      apply E, strcmp_zero. exact Hs.
  - right. split; [reflexivity|]. now intros (s & [=] & _).
Qed.

Lemma is_hw_disk_encryption_literal s :
  c_str s = "aes-xts" -> is_hw_disk_encryption (Some s) <> 0.
Proof.
  intros Hs. destruct (is_hw_disk_encryption_cases (Some s)) as [[-> _]|[_ H]];
    [discriminate|].
  exfalso. apply H. now exists s.
Qed.

Lemma loaded_zero_consistent st :
  loaded_library st = 0 -> library_consistent st = true.
Proof. unfold library_consistent. now intros ->. Qed.

(** ** The properties of the specification *)

(** C2: [set_hw_device_encryption_key] in mode "aes-xts" with a non-null
    password whose buffer was allocated, started with the library not
    loaded: the call returns, and if none of its polls of the readiness
    property read "true", then it polled 100 times, it returns the
    create-key-failed sentinel -7 and it made no call into the library.
    ([PROPERTY_VALUE_MAX] has to leave room for "true" and its
    terminator; it is 92 on Android.) *)
Theorem C2_set_key_gives_up_when_never_ready passwd mode st junk :
  c_str mode = "aes-xts" ->
  w_malloc W (trace st) MAX_PASSWORD_LEN = Some junk ->
  loaded_library st = 0 ->
  (4 < PROPERTY_VALUE_MAX)%nat ->
  exists r st' ev,
    set_hw_device_encryption_key (Some passwd) (Some mode) st = Some (r, st') /\
    trace st' = ev ++ trace st /\
    (never_ready ev ->
     r = -7 /\ no_call ev /\ polls ev = 100%nat).
Proof.
  intros Hmode Hm Hl Hmax.
  destruct (set_hw_device_encryption_key_events passwd (Some mode) st junk
              (is_hw_disk_encryption_literal mode Hmode) Hm
              (loaded_zero_consistent st Hl))
    as (r & st' & ev & Hrun & Ht & _ & _ & Hwait).
  exists r, st', ev. split; [exact Hrun|]. split; [exact Ht|].
  intros Hn. exact (Hwait Hl Hmax Hn).
Qed.

(** C3: in every state a process can reach the flag is set only together
    with all three function pointers, and no exported call changes a set
    flag or its pointers.  [load_qseecom_library] returns the flag; with
    the flag set it changes nothing; when it sets the flag, the events
    of the call end with [dlopen] and the successful resolution of
    create, update and wipe, in that order, and the pointers hold those
    three addresses.  A key operation (create, wipe or update) run with
    the flag set does no wait and no resolution; one that leaves the flag
    clear returned its own sentinel and made no call into the library. *)
Theorem C3_loaded_flag_discipline st op bufs :
  reachable st ->
  read_bufs (heap st) (op_bufs op) = Some bufs ->
  library_consistent st = true /\
  (forall c r st', run_api c st = Some (r, st') ->
                   library_consistent st' = true /\
                   (loaded_library st <> 0 -> same_library st st')) /\
  (exists st1 ev,
     load_qseecom_library st = Some (loaded_library st1, st1) /\
     trace st1 = ev ++ trace st /\
     library_consistent st1 = true /\
     (loaded_library st <> 0 -> st1 = st) /\
     (loaded_library st = 0 -> loaded_library st1 <> 0 ->
      loaded_library st1 = 1 /\ resolved_in_order ev st1)) /\
  (exists r st' ev,
     run_op op st = Some (r, st') /\
     trace st' = ev ++ trace st /\
     (loaded_library st <> 0 -> same_library st st' /\ no_load_step ev) /\
     (loaded_library st' = 0 -> r = op_sentinel op /\ no_call ev)).
Proof.
  intros Hreach Hbufs.
  pose proof (reachable_consistent st Hreach) as Hc.
  split; [exact Hc|]. split; [|split].
  - intros c r st' Hrun.
    destruct (preserves_run_api c st r st' Hrun) as [H1 H2]. auto.
  - destruct (load_qseecom_library_run st)
      as (r & st1 & ev & Hrun & -> & Ht & _ & Hnz & Hz).
    exists st1, ev. split; [exact Hrun|]. split; [exact Ht|].
    split; [|split].
    + eapply load_keeps_consistent; [exact Hc | exact Hnz |].
      intros E. now destruct (Hz E) as (_ & H & _).
    + intros N. now destruct (Hnz N).
    + intros E N. destruct (Hz E) as (_ & [H|H] & _); [contradiction | exact H].
  - destruct (run_op_run op st bufs Hc Hbufs) as (r & st' & load_ev & Hop).
    pose proof (op_load_no_call _ _ _ _ _ _ Hop) as Hlc.
    destruct (op_outcome_trace _ _ _ _ _ _ Hop)
      as (call_ev & Ht & _ & Hz' & Hnz').
    destruct Hop as (Hrun & _ & _ & Hnz & _).
    exists r, st', (call_ev ++ load_ev).
    split; [exact Hrun|]. split; [now rewrite <- app_assoc|]. split.
    + intros N. destruct (Hnz N) as [-> Hs]. split; [exact Hs|].
      rewrite app_nil_r.
      destruct (Z.eq_dec (loaded_library st') 0) as [E|E].
      * destruct (Hz' E) as [-> _]. constructor.
      * destruct (Hnz' E) as (f & _ & -> & _). repeat constructor.
    + intros E. destruct (Hz' E) as [-> ->]. split; [reflexivity | exact Hlc].
Qed.

(** C4: [is_ice_enabled] returns 0 when the metadata partition exists,
    whatever the boot device reads; otherwise 1 (UFS) when the boot
    device property contains "ufs"; otherwise, when it contains "sdhc",
    2 (SDCC) if /dev/icesdcc exists and 0 if not; and 0 in every other
    case. *)
Theorem C4_is_ice_enabled_backend st :
  exists r st',
    is_ice_enabled st = Some (r, st') /\
    (metadata_exists st = true -> r = 0) /\
    (metadata_exists st = false -> occurs "ufs" (bootdevice st) -> r = 1) /\
    (metadata_exists st = false -> ~ occurs "ufs" (bootdevice st) ->
     occurs "sdhc" (bootdevice st) ->
     r = if icesdcc_exists st then 2 else 0) /\
    (metadata_exists st = false -> ~ occurs "ufs" (bootdevice st) ->
     ~ occurs "sdhc" (bootdevice st) -> r = 0).
Proof.
  destruct (is_ice_enabled_run st) as (r & ev & Hrun & _ & _ & H).
  exists r, (logs ev st). split; [exact Hrun | exact H].
Qed.

(** C5: [is_hw_disk_encryption] returns 1 exactly when the mode is a
    string that reads "aes-xts", and 0 for NULL and every other string. *)
Theorem C5_is_hw_disk_encryption_iff mode :
  (is_hw_disk_encryption mode = 1 <->
   exists s, mode = Some s /\ c_str s = "aes-xts") /\
  (is_hw_disk_encryption mode = 0 <->
   ~ exists s, mode = Some s /\ c_str s = "aes-xts") /\
  is_hw_disk_encryption None = 0.
Proof.
  split; [|split; [|reflexivity]];
    destruct (is_hw_disk_encryption_cases mode) as [[-> H]|[-> H]];
    split; intros H'; try discriminate; try reflexivity; try contradiction;
    assumption.
Qed.

(** C6: when the mode is NULL or any string other than "aes-xts", set
    and update return -1 and leave the whole state as it was: nothing
    allocated, nothing called. *)
Theorem C6_other_modes_are_no_ops passwd oldpw newpw mode st :
  (forall s, mode = Some s -> c_str s <> "aes-xts") ->
  set_hw_device_encryption_key passwd mode st = Some (-1, st) /\
  update_hw_device_encryption_key oldpw newpw mode st = Some (-1, st).
Proof.
  intros Hmode.
  assert (is_hw_disk_encryption mode = 0) as H0.
  { destruct (is_hw_disk_encryption_cases mode) as [[_ (s & E & Hs)]|[H _]];
      [|exact H].
    exfalso. exact (Hmode s E Hs). }
  split; apply set_key_not_hw; exact H0.
Qed.

(** C7: [clear_hw_device_encryption_key] takes no mode; it maps the disk
    encryption tag with the backend [is_ice_enabled] reports and goes to
    the wipe operation: when the flag is set afterwards, the last event
    is the call through the wipe pointer with that tag and the result is
    the status of that call; when the flag is clear, the result is the
    wipe-key-failed sentinel -8 and the library was not called. *)
Theorem C7_clear_key_forwards_to_wipe st :
  library_consistent st = true ->
  exists storage_type ice_ev r st' ev,
    is_ice_enabled st = Some (storage_type, logs ice_ev st) /\
    clear_hw_device_encryption_key st = Some (r, st') /\
    trace st' = ev ++ trace st /\
    (loaded_library st' <> 0 ->
     exists wipe before,
       qseecom_wipe_key st' = Some wipe /\
       trace st' = EvCall wipe (backend_usage storage_type) [] r :: before /\
       r = w_call W before wipe (backend_usage storage_type) []) /\
    (loaded_library st' = 0 -> r = -8 /\ no_call ev).
Proof.
  intros Hc.
  destruct (clear_hw_device_encryption_key_run st Hc)
    as (storage & ice_ev & r & st' & load_ev & Hice & Hnc & _ & Hop & Hrun).
  pose proof (op_load_no_call _ _ _ _ _ _ Hop) as Hlc.
  destruct (op_outcome_trace _ _ _ _ _ _ Hop)
    as (call_ev & Ht & _ & Hz' & Hnz').
  rewrite trace_logs in Ht.
  exists storage, ice_ev, r, st', (call_ev ++ load_ev ++ ice_ev).
  split; [exact Hice|]. split; [exact Hrun|].
  split; [now rewrite <- !app_assoc|]. split.
  - intros N. destruct (Hnz' N) as (f & Hf & -> & Hr).
    exists f, (load_ev ++ ice_ev ++ trace st).
    rewrite trace_logs in Hr. now repeat split.
  - intros E. destruct (Hz' E) as [-> ->]. split; [reflexivity|].
    cbn [app]. apply Forall_app. split; [exact Hlc | exact Hnc].
Qed.

(** C8: for a non-null password, [get_tmp_passwd] leaves a live block of
    exactly 32 bytes: a strict prefix of a password longer than 32
    bytes, a password shorter than 32 bytes followed by zero bytes only;
    and this is the buffer every call into the library made by
    [set_hw_device_encryption_key] receives. *)
Theorem C8_password_buffer passwd mode st junk :
  is_hw_disk_encryption mode <> 0 ->
  w_malloc W (trace st) MAX_PASSWORD_LEN = Some junk ->
  library_consistent st = true ->
  exists p st1 buf,
    get_tmp_passwd (Some passwd) st = Some (Some p, st1) /\
    heap st1 !! p = Some (Block buf true) /\
    padded_copy passwd buf /\
    exists r st' ev,
      set_hw_device_encryption_key (Some passwd) mode st = Some (r, st') /\
      trace st' = ev ++ trace st /\
      calls_carry [buf] ev.
Proof.
  intros Hmode Hm Hc.
  eexists (length (heap st)), _, (tmp_buffer passwd).
  split; [exact (get_tmp_passwd_run passwd st junk Hm)|].
  split; [cbn [heap log set_heap]; now apply list_lookup_middle|].
  split; [apply tmp_buffer_padded_copy|].
  destruct (set_hw_device_encryption_key_events passwd mode st junk Hmode Hm Hc)
    as (r & st' & ev & Hrun & Ht & _ & Hcarry & _).
  now exists r, st', ev.
Qed.

(** C9: [should_use_keymaster] returns 0 exactly when what
    [get_keymaster_version] reports equals
    [KEYMASTER_MODULE_API_VERSION_0_3], and 1 for every other outcome;
    a failed probe reports its non-zero return code, so with a negative
    code (and the version constant not negative) the answer is 1. *)
Theorem C9_should_use_keymaster st :
  let probe := w_hw_get_module_by_class W (trace st)
                 KEYSTORE_HARDWARE_MODULE_ID in
  exists version r st',
    get_keymaster_version st = Some (version, st') /\
    should_use_keymaster st = Some (r, st') /\
    (fst probe <> 0 -> version = fst probe) /\
    (fst probe = 0 -> version = module_api_version (snd probe)) /\
    (r = 0 <-> version = KEYMASTER_MODULE_API_VERSION_0_3) /\
    (version <> KEYMASTER_MODULE_API_VERSION_0_3 -> r = 1) /\
    (fst probe < 0 -> 0 <= KEYMASTER_MODULE_API_VERSION_0_3 -> r = 1).
Proof.
  intros probe.
  unfold should_use_keymaster, get_keymaster_version, bind,
    hw_get_module_by_class, ret. cbn [fst snd]. fold probe.
  destruct (Z.eqb_spec (fst probe) 0) as [E|E]; cbn [negb].
  - destruct (Z.eqb_spec (module_api_version (snd probe))
                KEYMASTER_MODULE_API_VERSION_0_3) as [V|V];
      eexists _, _, _; (split; [reflexivity|]); (split; [reflexivity|]);
      repeat split; intros; try reflexivity; try contradiction;
      try discriminate; try lia.
  - destruct (Z.eqb_spec (fst probe) KEYMASTER_MODULE_API_VERSION_0_3) as [V|V];
      eexists _, _, _; (split; [reflexivity|]); (split; [reflexivity|]);
      repeat split; intros; try reflexivity; try contradiction;
      try discriminate; try lia.
Qed.

(** C10: with a null password [set_hw_device_encryption_key] returns -1
    in every mode and leaves the whole state as it was; with a null new
    password [update_hw_device_encryption_key] returns -1 and makes no
    call into the library. *)
Theorem C10_null_password_is_not_forwarded oldpw mode st :
  set_hw_device_encryption_key None mode st = Some (-1, st) /\
  exists st' ev,
    update_hw_device_encryption_key oldpw None mode st = Some (-1, st') /\
    trace st' = ev ++ trace st /\
    no_call ev.
Proof.
  split.
  - destruct (set_key_null None mode SET_HW_DISK_ENC_KEY st)
      as (st' & ev & Hrun & _ & _ & Hst).
    now rewrite (Hst eq_refl) in Hrun.
  - destruct (set_key_null oldpw mode UPDATE_HW_DISK_ENC_KEY st)
      as (st' & ev & Hrun & Ht & Hnc & _).
    now exists st', ev.
Qed.

(** ** Further properties of the functions *)

Lemma slept_app ev1 ev2 : slept (ev1 ++ ev2) = slept ev1 + slept ev2.
Proof.
  unfold slept. induction ev1 as [|e ev1 IH]; cbn [foldr app]; [lia|].
  fold (slept (ev1 ++ ev2)) in *. fold (slept ev1) in *.
  destruct e; lia.
Qed.

Lemma is_qseecom_up_loop_shape n : forall st,
  exists r ev,
    is_qseecom_up_loop n st = Some (r, logs ev st) /\
    Forall (fun e => is_poll e = true \/ exists us, e = EvUsleep us) ev /\
    (polls ev <= n)%nat /\
    (n <> O -> 1 <= polls ev)%nat /\
    ((r = 1 /\
      slept ev = 100000 * (Z.of_nat (polls ev) - 1) /\
      exists v rest,
        ev = EvPropertyGet "sys.keymaster.loaded" v :: rest /\
        ((4 < PROPERTY_VALUE_MAX)%nat ->
         c_str v = "true" /\ never_ready rest)) \/
     (r = 0 /\
      polls ev = n /\
      slept ev = 100000 * Z.of_nat n /\
      ((4 < PROPERTY_VALUE_MAX)%nat -> never_ready ev))).
Proof.
  induction n as [|n IH]; intros st.
  - exists 0, []. split; [reflexivity|]. split; [constructor|].
    split; [cbn; lia|]. split; [intros H; contradiction|].
    right. repeat split. intros _. constructor.
  - cbn [is_qseecom_up_loop]. unfold bind at 1. unfold property_get at 1.
    set (v := match w_property W (trace st) "sys.keymaster.loaded" with
              | Some v => v
              | None => ""
              end).
    cbn [snd].
    destruct (strncmp v "true" PROPERTY_VALUE_MAX =? 0) eqn:Hcmp.
    + exists 1, [EvPropertyGet "sys.keymaster.loaded" v].
      split; [reflexivity|].
      split; [constructor; [left; reflexivity | constructor]|].
      change (polls [EvPropertyGet "sys.keymaster.loaded" v]) with 1%nat.
      split; [lia|]. split; [lia|].
      left. split; [reflexivity|]. split; [reflexivity|].
      exists v, []. split; [reflexivity|]. intros Hmax.
      rewrite strncmp_true in Hcmp by exact Hmax.
      apply String.eqb_eq in Hcmp. split; [exact Hcmp | constructor].
    + unfold bind at 1. unfold usleep, modify.
      destruct (IH (log (EvUsleep 100000)
                     (log (EvPropertyGet "sys.keymaster.loaded" v) st)))
        as (r & ev & Hrun & Hev & Hle & _ & Hcase).
      set (first := [EvUsleep 100000; EvPropertyGet "sys.keymaster.loaded" v]).
      assert (polls first = 1%nat) as Hp1 by reflexivity.
      assert (slept first = 100000) as Hs1 by reflexivity.
      assert ((4 < PROPERTY_VALUE_MAX)%nat -> never_ready first) as Hn1.
      { intros Hmax. rewrite strncmp_true in Hcmp by exact Hmax.
        constructor; [reflexivity|]. constructor; [|constructor].
        cbn. exact Hcmp. }
      exists r, (ev ++ first). rewrite logs_app.
      split; [exact Hrun|].
      split.
      { apply Forall_app. split; [exact Hev|].
        constructor; [right; now eexists|].
        constructor; [left; reflexivity | constructor]. }
      rewrite polls_app, slept_app, Hp1, Hs1.
      split; [lia|]. split; [lia|].
      destruct Hcase as [(-> & Hs & v' & rest & -> & Hready)
                        |(-> & Hpolls & Hs & Hnever)].
      * left. split; [reflexivity|]. split; [lia|].
        exists v', (rest ++ first). split; [reflexivity|].
        intros Hmax. destruct (Hready Hmax) as [Hv Hrest].
        split; [exact Hv|]. apply Forall_app.
        split; [exact Hrest | exact (Hn1 Hmax)].
      * right. split; [reflexivity|]. split; [lia|]. split; [lia|].
        intros Hmax. apply Forall_app.
        split; [exact (Hnever Hmax) | exact (Hn1 Hmax)].
Qed.

(** X1: [is_qseecom_up] polls the readiness property at least once and at
    most 100 times.  It returns 1 at the first poll that reads "true",
    with that poll as its last action and no sleep after it; it returns
    0 after 100 polls none of which read "true".  It sleeps 100 ms after
    every poll that did not read "true", so a timeout has asked for ten
    seconds of sleep in all. *)
Theorem X1_is_qseecom_up_wait st :
  (4 < PROPERTY_VALUE_MAX)%nat ->
  exists r ev,
    is_qseecom_up st = Some (r, logs ev st) /\
    (1 <= polls ev <= 100)%nat /\
    ((r = 1 /\
      slept ev = 100000 * (Z.of_nat (polls ev) - 1) /\
      exists v rest,
        ev = EvPropertyGet "sys.keymaster.loaded" v :: rest /\
        c_str v = "true" /\ never_ready rest) \/
     (r = 0 /\ polls ev = 100%nat /\ slept ev = 10000000 /\ never_ready ev)).
Proof.
  intros Hmax.
  destruct (is_qseecom_up_loop_shape CRYPTFS_HW_UP_CHECK_COUNT st)
    as (r & ev & Hrun & _ & Hle & Hge & Hcase).
  exists r, ev. split; [exact Hrun|].
  split; [split; [apply Hge; discriminate | exact Hle]|].
  destruct Hcase as [(-> & Hs & v & rest & -> & Hready)
                    |(-> & Hpolls & Hs & Hnever)].
  - left. split; [reflexivity|]. split; [exact Hs|].
    exists v, rest. split; [reflexivity | exact (Hready Hmax)].
  - right. split; [reflexivity|]. split; [exact Hpolls|].
    split; [exact Hs | exact (Hnever Hmax)].
Qed.

(** X2: [map_usage] always asks [is_ice_enabled] first.  Only the disk
    encryption tag (1) is rewritten: to 3 on UFS, to 4 on SDCC, and kept
    on a standard backend; every other tag comes back unchanged. *)
Theorem X2_map_usage_rewrites_only_disk_tag usage st :
  exists storage_type ev r,
    is_ice_enabled st = Some (storage_type, logs ev st) /\
    map_usage usage st = Some (r, logs ev st) /\
    (usage <> 1 -> r = usage) /\
    (usage = 1 -> storage_type = 1 -> r = 3) /\
    (usage = 1 -> storage_type = 2 -> r = 4) /\
    (usage = 1 -> storage_type <> 1 -> storage_type <> 2 -> r = 1).
Proof.
  destruct (map_usage_run usage st) as (storage & ev & Hice & Hmap & _).
  eexists storage, ev, _. split; [exact Hice|]. split; [exact Hmap|].
  unfold CRYPTFS_HW_KM_USAGE_DISK_ENCRYPTION, backend_usage,
    QTI_ICE_STORAGE_UFS, QTI_ICE_STORAGE_SDCC,
    CRYPTFS_HW_KM_USAGE_UFS_ICE_DISK_ENCRYPTION,
    CRYPTFS_HW_KM_USAGE_SDCC_ICE_DISK_ENCRYPTION.
  destruct (Z.eqb_spec usage 1) as [Hu|Hu];
    destruct (Z.eqb_spec storage 1) as [H1|H1];
    destruct (Z.eqb_spec storage 2) as [H2|H2];
    repeat split; intros; try reflexivity; try contradiction; try lia.
Qed.

(** X3: [secure_memset(v, c, n)] on a live block of at least [n] bytes
    sets its first [n] bytes to [(unsigned char)c], leaves the bytes
    after them and every other block as they were, and returns [v]. *)
Theorem X3_secure_memset_writes_prefix st v c n d :
  heap st !! v = Some (Block d true) ->
  (n <= length d)%nat ->
  secure_memset v c n st =
    Some (v, set_heap
               (<[v := Block (replicate n (ascii_of_N (Z.to_N (c mod 256)))
                                ++ drop n d) true]> (heap st)) st).
Proof.
  intros Hv Hn. unfold secure_memset.
  rewrite (bind_Some _ _ _ _ _
             (secure_memset_loop_run v c n O d st Hv ltac:(lia))).
  reflexivity.
Qed.

Lemma opened_app ev1 ev2 : opened (ev1 ++ ev2) = opened ev1 ++ opened ev2.
Proof.
  induction ev1 as [|e ev1 IH]; [reflexivity|].
  cbn [app]. unfold opened in *. cbn [foldr].
  destruct e as [| | |? [h|]| | | | | |]; cbn [app]; now rewrite ?IH.
Qed.

Lemma closed_app ev1 ev2 : closed (ev1 ++ ev2) = closed ev1 ++ closed ev2.
Proof.
  induction ev1 as [|e ev1 IH]; [reflexivity|].
  cbn [app]. unfold closed in *. cbn [foldr].
  destruct e; cbn [app]; now rewrite ?IH.
Qed.

Lemma wait_steps_open_nothing ev :
  Forall (fun e => is_poll e = true \/ exists us, e = EvUsleep us) ev ->
  opened ev = [] /\ closed ev = [].
Proof.
  induction 1 as [|e ev He _ [IHo IHc]]; [split; reflexivity|].
  unfold opened, closed in *. cbn [foldr].
  destruct He as [He|[us ->]]; [|now split].
  destruct e; try discriminate. now split.
Qed.

Lemma load_qseecom_library_shape st :
  loaded_library st = 0 ->
  exists st' waited tl,
    load_qseecom_library st = Some (loaded_library st', st') /\
    trace st' = tl ++ waited ++ trace st /\
    heap st' = heap st /\
    load_tail tl (loaded_library st') /\
    Forall (fun e => is_poll e = true \/ exists us, e = EvUsleep us) waited /\
    (1 <= polls waited <= 100)%nat /\
    (tl = [] -> polls waited = 100%nat /\ slept waited = 10000000).
Proof.
  intros Hz. unfold load_qseecom_library. unfold bind at 1. unfold get at 1.
  rewrite Hz. cbn [Z.eqb negb].
  destruct (is_qseecom_up_loop_shape CRYPTFS_HW_UP_CHECK_COUNT st)
    as (up & ev0 & Hup & Hev0 & Hle & Hge & Hcase).
  fold is_qseecom_up in Hup. rewrite (bind_Some _ _ _ _ _ Hup).
  assert (1 <= polls ev0 <= 100)%nat as Hbounds
    by (split; [apply Hge; discriminate | exact Hle]).
  pose proof (trace_logs ev0 st) as Ht.
  pose proof (heap_logs ev0 st) as Hh.
  pose proof (loaded_library_logs ev0 st) as Hl. rewrite Hz in Hl.
  destruct Hcase as [(-> & _)|(-> & Hpolls & Hs & _)]; cbn [Z.eqb].
  2:{ exists (logs ev0 st), ev0, []. unfold ret. rewrite Hl, Ht, Hh.
      repeat split; try assumption; try constructor; tauto. }
  assert (forall (e : event) (tl : list event) (flag : Z),
            load_tail (e :: tl) flag ->
            load_tail (e :: tl) flag /\
            Forall (fun e => is_poll e = true \/ exists us, e = EvUsleep us)
              ev0 /\
            (1 <= polls ev0 <= 100)%nat /\
            (e :: tl = [] -> polls ev0 = 100%nat /\ slept ev0 = 10000000))
    as Hrest.
  { intros e tl flag Htl. split; [exact Htl|]. split; [exact Hev0|].
    split; [exact Hbounds|]. intros E. discriminate. }
  set (s0 := logs ev0 st) in *. clearbody s0.
  unfold bind, dlopen, dlerror, dlsym, modify, dlclose, get, ret, fault.
  cbn [trace log].
  destruct (w_dlopen W (trace s0) QSEECOM_LIBRARY_NAME) as [h|] eqn:Hopen.
  2:{ eexists _, ev0, [EvDlopen QSEECOM_LIBRARY_NAME None].
      split; [reflexivity|].
      cbn [loaded_library trace heap log set_dl_pending].
      rewrite Ht, Hh, Hl. split; [reflexivity|]. split; [reflexivity|].
      apply Hrest. constructor. }
  cbn [trace log set_dl_pending].
  destruct (w_dlsym W _ h "QSEECom_create_key") as [a1|m1] eqn:Hs1.
  2:{ eexists _, ev0, [EvDlclose h;
                        EvDlsym h "QSEECom_create_key" (DlError m1);
                        EvDlopen QSEECOM_LIBRARY_NAME (Some h)].
      split; [reflexivity|].
      cbn [loaded_library trace heap log set_dl_pending
           set_qseecom_create_key].
      rewrite Ht, Hh, Hl. split; [reflexivity|]. split; [reflexivity|].
      apply Hrest. constructor. }
  cbn [trace log set_dl_pending set_qseecom_create_key dl_pending].
  destruct (w_dlsym W _ h "QSEECom_update_key_user_info") as [a2|m2] eqn:Hs2.
  2:{ eexists _, ev0, [EvDlclose h;
                        EvDlsym h "QSEECom_update_key_user_info" (DlError m2);
                        EvDlsym h "QSEECom_create_key" (DlFound a1);
                        EvDlopen QSEECOM_LIBRARY_NAME (Some h)].
      split; [reflexivity|].
      cbn [loaded_library trace heap log set_dl_pending
           set_qseecom_create_key set_qseecom_update_key].
      rewrite Ht, Hh, Hl. split; [reflexivity|]. split; [reflexivity|].
      apply Hrest. constructor. }
  cbn [trace log set_dl_pending set_qseecom_create_key
       set_qseecom_update_key dl_pending].
  destruct (w_dlsym W _ h "QSEECom_wipe_key") as [a3|m3] eqn:Hs3.
  2:{ eexists _, ev0, [EvDlclose h;
                        EvDlsym h "QSEECom_wipe_key" (DlError m3);
                        EvDlsym h "QSEECom_update_key_user_info" (DlFound a2);
                        EvDlsym h "QSEECom_create_key" (DlFound a1);
                        EvDlopen QSEECOM_LIBRARY_NAME (Some h)].
      split; [reflexivity|].
      cbn [loaded_library trace heap log set_dl_pending
           set_qseecom_create_key set_qseecom_update_key
           set_qseecom_wipe_key].
      rewrite Ht, Hh, Hl. split; [reflexivity|]. split; [reflexivity|].
      apply Hrest. constructor. }
  eexists _, ev0, [EvDlsym h "QSEECom_wipe_key" (DlFound a3);
                   EvDlsym h "QSEECom_update_key_user_info" (DlFound a2);
                   EvDlsym h "QSEECom_create_key" (DlFound a1);
                   EvDlopen QSEECOM_LIBRARY_NAME (Some h)].
  split; [reflexivity|].
  cbn [loaded_library trace heap log set_dl_pending set_qseecom_create_key
       set_qseecom_update_key set_qseecom_wipe_key set_loaded_library].
  rewrite Ht, Hh. split; [reflexivity|]. split; [reflexivity|].
  apply Hrest. constructor.
Qed.

(** X4: a load started with the flag clear always polls the readiness
    property again (nothing of an earlier failure is remembered) and
    opens the library at most once.  When it leaves the flag clear, it
    has closed the handle it opened, if any: a missing symbol releases
    the library, and a failed [dlopen] closes nothing.  When it sets the
    flag, the handle stays open. *)
Theorem X4_failed_load_releases_handle st :
  loaded_library st = 0 ->
  exists st' ev,
    load_qseecom_library st = Some (loaded_library st', st') /\
    trace st' = ev ++ trace st /\
    (1 <= polls ev)%nat /\
    (length (opened ev) <= 1)%nat /\
    (loaded_library st' = 0 -> closed ev = opened ev) /\
    (loaded_library st' <> 0 -> closed ev = [] /\ length (opened ev) = 1%nat).
Proof.
  intros Hz.
  destruct (load_qseecom_library_shape st Hz)
    as (st' & waited & tl & Hrun & Ht & _ & Htl & Hw & [Hge _] & _).
  destruct (wait_steps_open_nothing waited Hw) as [Ho Hc].
  exists st', (tl ++ waited).
  split; [exact Hrun|]. split; [now rewrite <- app_assoc|].
  rewrite polls_app, opened_app, closed_app, Ho, Hc, !app_nil_r.
  split; [lia|].
  destruct Htl; cbn; repeat split; try lia; try reflexivity;
    intros; try contradiction; try discriminate.
Qed.

(** X5: with the buffer allocated, [set_hw_device_encryption_key] hands
    the create entry point the backend-mapped tag and the padded copy of
    the password, and returns the status of that call as it is, whatever
    its sign or value; the call is followed only by the release of the
    buffer.  When the library could not be loaded it returns -7. *)
Theorem X5_set_key_returns_create_status passwd mode st junk :
  is_hw_disk_encryption mode <> 0 ->
  w_malloc W (trace st) MAX_PASSWORD_LEN = Some junk ->
  library_consistent st = true ->
  let p := length (heap st) in
  let st1 := log (EvMalloc MAX_PASSWORD_LEN (Some p))
               (set_heap (heap st ++ [Block (tmp_buffer passwd) true]) st) in
  exists storage_type ice_ev r st',
    is_ice_enabled st1 = Some (storage_type, logs ice_ev st1) /\
    set_hw_device_encryption_key (Some passwd) mode st = Some (r, st') /\
    (loaded_library st' <> 0 ->
     exists create before,
       qseecom_create_key st' = Some create /\
       trace st' = EvFree p
                     :: EvCall create (backend_usage storage_type)
                          [tmp_buffer passwd] r
                     :: before /\
       r = w_call W before create (backend_usage storage_type)
             [tmp_buffer passwd]) /\
    (loaded_library st' = 0 -> r = -7).
Proof.
  intros Hmode Hm Hc p st1.
  destruct (set_hw_device_encryption_key_run passwd mode st junk Hmode Hm Hc)
    as (storage & ice_ev & r & st3 & load_ev & Hice & _ & _ & Hop & Hrun).
  destruct (op_outcome_trace _ _ _ _ _ _ Hop)
    as (call_ev & Ht & _ & Hz' & Hnz').
  eexists storage, ice_ev, r, _.
  split; [exact Hice|]. split; [exact Hrun|].
  cbn [loaded_library qseecom_create_key trace log set_heap].
  split.
  - intros N. destruct (Hnz' N) as (f & Hf & -> & Hr).
    exists f, (load_ev ++ trace (logs ice_ev st1)).
    split; [exact Hf|]. split; [now rewrite Ht | exact Hr].
  - intros E. now destruct (Hz' E) as [_ ->].
Qed.

(** X6: with the buffer allocated, the copy of the password made by
    [set_hw_device_encryption_key] is all zero bytes and freed when the
    call returns, on every outcome: library missing, wait timed out,
    primitive failed or succeeded. *)
Theorem X6_set_key_clears_and_frees passwd mode st junk :
  is_hw_disk_encryption mode <> 0 ->
  w_malloc W (trace st) MAX_PASSWORD_LEN = Some junk ->
  library_consistent st = true ->
  exists r st',
    set_hw_device_encryption_key (Some passwd) mode st = Some (r, st') /\
    heap st' = heap st ++ [Block (replicate MAX_PASSWORD_LEN NUL) false].
Proof.
  intros Hmode Hm Hc.
  destruct (set_hw_device_encryption_key_events passwd mode st junk
              Hmode Hm Hc) as (r & st' & ev & Hrun & _ & Hheap & _).
  now exists r, st'.
Qed.

(** X7: with both buffers allocated, [update_hw_device_encryption_key]
    hands the update entry point the backend-mapped tag, the copy of the
    old password and the copy of the new one, in that order, and returns
    the status of that call as it is; when the library could not be
    loaded it returns -9. *)
Theorem X7_update_key_returns_update_status old new mode st junk1 junk2 :
  is_hw_disk_encryption mode <> 0 ->
  w_malloc W (trace st) MAX_PASSWORD_LEN = Some junk1 ->
  w_malloc W (EvMalloc MAX_PASSWORD_LEN (Some (length (heap st))) :: trace st)
    MAX_PASSWORD_LEN = Some junk2 ->
  library_consistent st = true ->
  let p := length (heap st) in
  let cp := S p in
  let st2 := log (EvMalloc MAX_PASSWORD_LEN (Some cp))
               (log (EvMalloc MAX_PASSWORD_LEN (Some p))
                  (set_heap (heap st ++ [Block (tmp_buffer new) true;
                                         Block (tmp_buffer old) true]) st)) in
  exists storage_type ice_ev r st',
    is_ice_enabled st2 = Some (storage_type, logs ice_ev st2) /\
    update_hw_device_encryption_key (Some old) (Some new) mode st
      = Some (r, st') /\
    (loaded_library st' <> 0 ->
     exists update before,
       qseecom_update_key st' = Some update /\
       trace st' = EvFree cp :: EvFree p
                     :: EvCall update (backend_usage storage_type)
                          [tmp_buffer old; tmp_buffer new] r
                     :: before /\
       r = w_call W before update (backend_usage storage_type)
             [tmp_buffer old; tmp_buffer new]) /\
    (loaded_library st' = 0 -> r = -9).
Proof.
  intros Hmode Hm1 Hm2 Hc p cp st2.
  destruct (update_hw_device_encryption_key_run old new mode st junk1 junk2
              Hmode Hm1 Hm2 Hc)
    as (storage & ice_ev & r & st3 & load_ev & Hice & _ & _ & Hop & Hrun).
  destruct (op_outcome_trace _ _ _ _ _ _ Hop)
    as (call_ev & Ht & _ & Hz' & Hnz').
  eexists storage, ice_ev, r, _.
  split; [exact Hice|]. split; [exact Hrun|].
  cbn [loaded_library qseecom_update_key trace log set_heap].
  split.
  - intros N. destruct (Hnz' N) as (f & Hf & -> & Hr).
    exists f, (load_ev ++ trace (logs ice_ev st2)).
    split; [exact Hf|]. split; [now rewrite Ht | exact Hr].
  - intros E. now destruct (Hz' E) as [_ ->].
Qed.

(** X8: with both buffers allocated, both copies made by
    [update_hw_device_encryption_key] are all zero bytes and freed when
    the call returns, on every outcome. *)
Theorem X8_update_key_clears_and_frees_both old new mode st junk1 junk2 :
  is_hw_disk_encryption mode <> 0 ->
  w_malloc W (trace st) MAX_PASSWORD_LEN = Some junk1 ->
  w_malloc W (EvMalloc MAX_PASSWORD_LEN (Some (length (heap st))) :: trace st)
    MAX_PASSWORD_LEN = Some junk2 ->
  library_consistent st = true ->
  exists r st',
    update_hw_device_encryption_key (Some old) (Some new) mode st
      = Some (r, st') /\
    heap st' = heap st ++ [Block (replicate MAX_PASSWORD_LEN NUL) false;
                           Block (replicate MAX_PASSWORD_LEN NUL) false].
Proof.
  intros Hmode Hm1 Hm2 Hc.
  destruct (update_hw_device_encryption_key_run old new mode st junk1 junk2
              Hmode Hm1 Hm2 Hc)
    as (storage & ice_ev & r & st3 & load_ev & _ & _ & _ & _ & Hrun).
  eexists r, _. split; [exact Hrun | reflexivity].
Qed.

Lemma bind_ret {A B} (a : A) (k : A -> M B) st : bind (ret a) k st = k a st.
Proof. reflexivity. Qed.

Lemma update_without_old_copy oldpw new mode st junk :
  is_hw_disk_encryption mode <> 0 ->
  w_malloc W (trace st) MAX_PASSWORD_LEN = Some junk ->
  (forall old, oldpw = Some old ->
     w_malloc W (EvMalloc MAX_PASSWORD_LEN (Some (length (heap st)))
                   :: trace st) MAX_PASSWORD_LEN = None) ->
  exists st' ev,
    update_hw_device_encryption_key oldpw (Some new) mode st
      = Some (-1, st') /\
    trace st' = ev ++ trace st /\
    no_call ev /\ no_load_step ev /\
    same_library st st' /\
    heap st' = heap st ++ [Block (replicate MAX_PASSWORD_LEN NUL) false].
Proof.
  intros Hmode Hm Hold.
  unfold update_hw_device_encryption_key, set_key.
  rewrite (hw_mode_test _ Hmode).
  rewrite (bind_Some _ _ _ _ _ (get_tmp_passwd_run new st junk Hm)).
  set (p := length (heap st)).
  set (st1 := log (EvMalloc MAX_PASSWORD_LEN (Some p)) _).
  assert (exists st2 ev2,
            get_tmp_passwd oldpw st1 = Some (None, st2) /\
            st2 = logs ev2 st1 /\ no_call ev2 /\ no_load_step ev2)
    as (st2 & ev2 & Hget & -> & Hnc & Hnl).
  { destruct oldpw as [old|].
    - exists (log (EvMalloc MAX_PASSWORD_LEN None) st1),
        [EvMalloc MAX_PASSWORD_LEN None].
      split; [apply get_tmp_passwd_oom; exact (Hold old eq_refl)|].
      split; [reflexivity|]. split; repeat constructor.
    - exists st1, []. repeat split; constructor. }
  rewrite (bind_Some _ _ _ _ _ Hget).
  cbn [Z.eqb UPDATE_HW_DISK_ENC_KEY Pos.eqb]. rewrite bind_ret.
  assert (heap (logs ev2 st1) !! p = Some (Block (tmp_buffer new) true)) as Hp.
  { rewrite heap_logs. cbn [st1 heap log set_heap].
    now apply list_lookup_middle. }
  rewrite (bind_Some _ _ _ _ _
    (secure_memset_run _ p 0 MAX_PASSWORD_LEN _ Hp (length_tmp_buffer new))).
  rewrite zero_byte. set (z := replicate MAX_PASSWORD_LEN NUL).
  set (st3 := set_heap _ (logs ev2 st1)).
  assert (heap st3 !! p = Some (Block z true)) as Hpz.
  { cbn [st3 heap set_heap]. apply list_lookup_insert_eq.
    eapply lookup_lt_Some, Hp. }
  rewrite (bind_Some _ _ _ _ _ (free_run st3 p z Hpz)).
  unfold bind, free, ret.
  eexists _, (EvFree p :: ev2 ++ [EvMalloc MAX_PASSWORD_LEN (Some p)]).
  split; [reflexivity|].
  cbn [trace heap log set_heap st3]. rewrite trace_logs, heap_logs.
  cbn [st1 trace heap log set_heap].
  split; [cbn [app]; now rewrite <- app_assoc|].
  split.
  { constructor; [reflexivity|]. apply Forall_app.
    split; [exact Hnc | repeat constructor]. }
  split.
  { constructor; [reflexivity|]. apply Forall_app.
    split; [exact Hnl | repeat constructor]. }
  split.
  { eapply same_library_trans; [|apply (same_library_logs [EvFree p])].
    eapply same_library_trans; [|apply (same_library_logs ev2 st1)].
    repeat split. }
  rewrite list_insert_insert_eq.
  rewrite insert_app_r_alt by (unfold p; lia).
  replace (p - length (heap st))%nat with O by (unfold p; lia).
  reflexivity.
Qed.

(** X9: when the new password was copied but there is no copy of the old
    one (old password null, or its allocation failed),
    [update_hw_device_encryption_key] returns -1 without waiting for the
    library, loading it or calling it; the copy of the new password is
    still cleared and freed. *)
Theorem X9_update_without_old_password_is_skipped oldpw new mode st junk :
  is_hw_disk_encryption mode <> 0 ->
  w_malloc W (trace st) MAX_PASSWORD_LEN = Some junk ->
  (forall old, oldpw = Some old ->
     w_malloc W (EvMalloc MAX_PASSWORD_LEN (Some (length (heap st)))
                   :: trace st) MAX_PASSWORD_LEN = None) ->
  exists st' ev,
    update_hw_device_encryption_key oldpw (Some new) mode st
      = Some (-1, st') /\
    trace st' = ev ++ trace st /\
    no_call ev /\ no_load_step ev /\
    same_library st st' /\
    heap st' = heap st ++ [Block (replicate MAX_PASSWORD_LEN NUL) false].
Proof. exact (update_without_old_copy oldpw new mode st junk). Qed.

Lemma set_key_without_new_copy cur passwd mode operation st :
  (forall pw, passwd = Some pw ->
     w_malloc W (trace st) MAX_PASSWORD_LEN = None) ->
  exists st' ev,
    set_key cur passwd mode operation st = Some (-1, st') /\
    trace st' = ev ++ trace st /\
    no_call ev /\ no_load_step ev /\
    same_library st st' /\
    exists new, heap st' = heap st ++ new /\
                Forall (fun b => live b = true) new.
Proof.
  intros Hnew. unfold set_key. destruct (negb _).
  2:{ exists st, []. repeat split; try constructor.
      exists []. split; [now rewrite app_nil_r | constructor]. }
  assert (exists ev1,
            get_tmp_passwd passwd st = Some (None, logs ev1 st) /\
            no_call ev1 /\ no_load_step ev1)
    as (ev1 & Hget1 & Hnc1 & Hnl1).
  { destruct passwd as [pw|].
    - exists [EvMalloc MAX_PASSWORD_LEN None].
      split; [apply get_tmp_passwd_oom; exact (Hnew pw eq_refl)|].
      split; repeat constructor.
    - exists []. repeat split; constructor. }
  rewrite (bind_Some _ _ _ _ _ Hget1).
  assert (exists tmp st2 ev2 new,
            get_tmp_passwd cur (logs ev1 st) = Some (tmp, st2) /\
            trace st2 = ev2 ++ trace (logs ev1 st) /\
            no_call ev2 /\ no_load_step ev2 /\
            same_library (logs ev1 st) st2 /\
            heap st2 = heap (logs ev1 st) ++ new /\
            Forall (fun b => live b = true) new)
    as (tmp & st2 & ev2 & new & Hget2 & Ht2 & Hnc2 & Hnl2 & Hs2 & Hh2 & Hnew2).
  { destruct cur as [old|].
    - destruct (w_malloc W (trace (logs ev1 st)) MAX_PASSWORD_LEN)
        as [junk|] eqn:Hm.
      + eexists _, _, [_], [_].
        split; [exact (get_tmp_passwd_run old _ junk Hm)|].
        split; [reflexivity|].
        split; [repeat constructor|]. split; [repeat constructor|].
        split; [repeat split|]. split; [reflexivity|].
        repeat constructor.
      + eexists _, _, [_], [].
        split; [exact (get_tmp_passwd_oom old _ Hm)|].
        split; [reflexivity|].
        split; [repeat constructor|]. split; [repeat constructor|].
        split; [repeat split|]. cbn [heap log].
        split; [now rewrite app_nil_r | constructor].
    - exists None, (logs ev1 st), [], [].
      split; [reflexivity|]. split; [reflexivity|].
      split; [constructor|]. split; [constructor|].
      split; [apply same_library_refl|].
      split; [now rewrite app_nil_r | constructor]. }
  rewrite (bind_Some _ _ _ _ _ Hget2).
  exists st2, (ev2 ++ ev1). split; [reflexivity|].
  split; [rewrite Ht2, trace_logs; now rewrite app_assoc|].
  split; [apply Forall_app; now split|].
  split; [apply Forall_app; now split|].
  split; [eapply same_library_trans; [apply same_library_logs | exact Hs2]|].
  exists new. rewrite Hh2, heap_logs. now split.
Qed.

(** X10: when there is no copy of the new password (the password is null
    or its allocation failed), set and update return -1 without waiting
    for the library, loading it or calling it, and leave the flag and
    the function pointers as they were. *)
Theorem X10_no_new_copy_no_library passwd oldpw mode st :
  (forall pw, passwd = Some pw ->
     w_malloc W (trace st) MAX_PASSWORD_LEN = None) ->
  (exists st' ev,
     set_hw_device_encryption_key passwd mode st = Some (-1, st') /\
     trace st' = ev ++ trace st /\
     no_call ev /\ no_load_step ev /\ same_library st st') /\
  (exists st' ev,
     update_hw_device_encryption_key oldpw passwd mode st = Some (-1, st') /\
     trace st' = ev ++ trace st /\
     no_call ev /\ no_load_step ev /\ same_library st st').
Proof.
  intros Hnew. split.
  - destruct (set_key_without_new_copy None passwd mode
                SET_HW_DISK_ENC_KEY st Hnew)
      as (st' & ev & H1 & H2 & H3 & H4 & H5 & _).
    now exists st', ev.
  - destruct (set_key_without_new_copy oldpw passwd mode
                UPDATE_HW_DISK_ENC_KEY st Hnew)
      as (st' & ev & H1 & H2 & H3 & H4 & H5 & _).
    now exists st', ev.
Qed.

Lemma c_str_no_nul s : Forall (fun c => c <> NUL) (list_ascii_of_string (c_str s)).
Proof.
  induction s as [|c s IH]; cbn [c_str]; [constructor|].
  destruct (ascii_dec c NUL); cbn [list_ascii_of_string]; now constructor.
Qed.

Lemma c_prefix_take n : forall s,
  list_ascii_of_string (c_prefix n s)
    = take n (list_ascii_of_string (c_str s)).
Proof.
  induction n as [|n IH]; intros s.
  - now rewrite take_0.
  - destruct s as [|c s]; cbn [c_prefix c_str]; [reflexivity|].
    destruct (ascii_dec c NUL); [reflexivity|].
    cbn [list_ascii_of_string]. now rewrite IH.
Qed.

(** X11: for a password of 32 bytes or more the buffer [get_tmp_passwd]
    builds is the first 32 bytes of the password and nothing else: it
    holds no zero byte, so it is not a terminated C string. *)
Theorem X11_long_password_buffer_has_no_terminator passwd st junk :
  w_malloc W (trace st) MAX_PASSWORD_LEN = Some junk ->
  (MAX_PASSWORD_LEN <= strlen passwd)%nat ->
  exists p st' buf,
    get_tmp_passwd (Some passwd) st = Some (Some p, st') /\
    heap st' !! p = Some (Block buf true) /\
    buf = take MAX_PASSWORD_LEN (list_ascii_of_string (c_str passwd)) /\
    Forall (fun c => c <> NUL) buf.
Proof.
  intros Hm Hlong.
  eexists (length (heap st)), _, (tmp_buffer passwd).
  split; [exact (get_tmp_passwd_run passwd st junk Hm)|].
  split; [cbn [heap log set_heap]; now apply list_lookup_middle|].
  assert (tmp_buffer passwd
          = take MAX_PASSWORD_LEN (list_ascii_of_string (c_str passwd))) as E.
  { unfold tmp_buffer. rewrite strnlen_min, c_prefix_take.
    replace (MAX_PASSWORD_LEN - _)%nat with O by lia.
    cbn [replicate]. now rewrite app_nil_r. }
  split; [exact E|]. rewrite E.
  apply Forall_take, c_str_no_nul.
Qed.

Lemma is_ice_enabled_probes st :
  exists r ev,
    is_ice_enabled st = Some (r, logs ev st) /\
    (1 <= length ev <= 3)%nat /\
    (metadata_exists st = true ->
     ev = [EvAccess METADATA_PARTITION_NAME 0]) /\
    (existsb probes_icesdcc ev = true ->
     metadata_exists st = false /\
     ~ occurs "ufs" (bootdevice st) /\ occurs "sdhc" (bootdevice st)).
Proof.
  unfold is_ice_enabled, bootdevice, metadata_exists,
    bind, access, property_get, ret.
  cbn [trace log].
  destruct (w_exists W (trace st) METADATA_PARTITION_NAME) eqn:Hmeta.
  { exists 0, [EvAccess METADATA_PARTITION_NAME 0]. cbn.
    repeat split; try discriminate; lia. }
  cbn [Z.eqb trace log fst snd].
  destruct (w_property W _ "ro.boot.bootdevice") as [v|] eqn:Hprop;
    cbn [default fst snd].
  2:{ exists 0, [EvPropertyGet "ro.boot.bootdevice" "";
                 EvAccess METADATA_PARTITION_NAME (-1)].
      cbn. repeat split; try discriminate; lia. }
  destruct (Z.of_nat (String.length (c_str v)) =? 0) eqn:Hlen; cbn [negb].
  { exists 0, [EvPropertyGet "ro.boot.bootdevice" v;
               EvAccess METADATA_PARTITION_NAME (-1)].
    cbn. repeat split; try discriminate; lia. }
  destruct (strstr v "ufs") as [off|] eqn:Hufs.
  { exists QTI_ICE_STORAGE_UFS,
      [EvPropertyGet "ro.boot.bootdevice" v;
       EvAccess METADATA_PARTITION_NAME (-1)].
    cbn. repeat split; try discriminate; lia. }
  apply (strstr_None v "ufs") in Hufs. change (c_str "ufs") with "ufs" in Hufs.
  destruct (strstr v "sdhc") as [off|] eqn:Hsdhc.
  - assert (occurs "sdhc" v) as Hocc
      by (apply (strstr_spec v "sdhc"); eexists; exact Hsdhc).
    cbn [trace log].
    destruct (w_exists W _ "/dev/icesdcc") eqn:Hnode.
    + exists QTI_ICE_STORAGE_SDCC,
        [EvAccess "/dev/icesdcc" 0; EvPropertyGet "ro.boot.bootdevice" v;
         EvAccess METADATA_PARTITION_NAME (-1)].
      cbn. repeat split; try discriminate; try assumption; lia.
    + exists 0,
        [EvAccess "/dev/icesdcc" (-1); EvPropertyGet "ro.boot.bootdevice" v;
         EvAccess METADATA_PARTITION_NAME (-1)].
      cbn. repeat split; try discriminate; try assumption; lia.
  - exists 0, [EvPropertyGet "ro.boot.bootdevice" v;
               EvAccess METADATA_PARTITION_NAME (-1)].
    cbn. repeat split; try discriminate; lia.
Qed.

(** X12: [is_ice_enabled] only reads: it changes nothing but the trace,
    by one to three probes.  When the metadata partition exists it is the
    only thing looked at (the boot device property is not read); and the
    node /dev/icesdcc is probed only when the metadata partition is
    absent and the boot device names "sdhc" but not "ufs". *)
Theorem X12_is_ice_enabled_probes st :
  exists r ev,
    is_ice_enabled st = Some (r, logs ev st) /\
    (1 <= length ev <= 3)%nat /\
    (metadata_exists st = true ->
     ev = [EvAccess METADATA_PARTITION_NAME 0]) /\
    (existsb probes_icesdcc ev = true ->
     metadata_exists st = false /\
     ~ occurs "ufs" (bootdevice st) /\ occurs "sdhc" (bootdevice st)).
Proof. exact (is_ice_enabled_probes st). Qed.

Lemma all_zero_replicate n : all_zero (replicate n NUL) = true.
Proof. induction n as [|n IH]; [reflexivity | exact IH]. Qed.

Lemma run_api_returns c st :
  library_consistent st = true ->
  exists r st' new,
    run_api c st = Some (r, st') /\
    heap st' = heap st ++ new /\
    Forall (fun b => freed_clean b = true) new.
Proof.
  intros Hc.
  assert (forall n, freed_clean (Block (replicate n NUL) false) = true) as Hz
    by (intros n; apply all_zero_replicate).
  assert (forall new, Forall (fun b => live b = true) new ->
                      Forall (fun b => freed_clean b = true) new) as Hlive.
  { intros new H. eapply Forall_impl; [exact H|].
    intros b Hb. unfold freed_clean. now rewrite Hb. }
  destruct c as [passwd mode|oldpw newpw mode| | |]; cbn [run_api].
  - destruct (Z.eq_dec (is_hw_disk_encryption mode) 0) as [E|E].
    { exists (-1), st, []. split; [now apply set_key_not_hw|].
      split; [now rewrite app_nil_r | constructor]. }
    destruct passwd as [pw|].
    + destruct (w_malloc W (trace st) MAX_PASSWORD_LEN) as [junk|] eqn:Hm.
      * destruct (set_hw_device_encryption_key_events pw mode st junk E Hm Hc)
          as (r & st' & ev & Hrun & _ & Hh & _).
        exists r, st', [Block (replicate MAX_PASSWORD_LEN NUL) false].
        split; [exact Hrun|]. split; [exact Hh|]. repeat constructor; apply Hz.
      * destruct (set_key_without_new_copy None (Some pw) mode
                    SET_HW_DISK_ENC_KEY st)
          as (st' & ev & Hrun & _ & _ & _ & _ & new & Hh & Hnew);
          [intros; exact Hm|].
        exists (-1), st', new. split; [exact Hrun|]. split; [exact Hh | auto].
    + destruct (set_key_without_new_copy None None mode
                  SET_HW_DISK_ENC_KEY st)
        as (st' & ev & Hrun & _ & _ & _ & _ & new & Hh & Hnew);
        [intros pw [=]|].
      exists (-1), st', new. split; [exact Hrun|]. split; [exact Hh | auto].
  - destruct (Z.eq_dec (is_hw_disk_encryption mode) 0) as [E|E].
    { exists (-1), st, []. split; [now apply set_key_not_hw|].
      split; [now rewrite app_nil_r | constructor]. }
    assert (forall H : (forall pw, newpw = Some pw ->
                          w_malloc W (trace st) MAX_PASSWORD_LEN = None),
              exists r st' new,
                update_hw_device_encryption_key oldpw newpw mode st
                  = Some (r, st') /\
                heap st' = heap st ++ new /\
                Forall (fun b => freed_clean b = true) new) as Hnone.
    { intros H.
      destruct (set_key_without_new_copy oldpw newpw mode
                  UPDATE_HW_DISK_ENC_KEY st H)
        as (st' & ev & Hrun & _ & _ & _ & _ & new & Hh & Hnew).
      exists (-1), st', new. split; [exact Hrun|]. split; [exact Hh | auto]. }
    destruct newpw as [new|]; [|apply Hnone; intros pw [=]].
    destruct (w_malloc W (trace st) MAX_PASSWORD_LEN) as [junk1|] eqn:Hm1;
      [|apply Hnone; intros; reflexivity].
    assert (forall H : (forall old, oldpw = Some old ->
                          w_malloc W
                            (EvMalloc MAX_PASSWORD_LEN
                               (Some (length (heap st))) :: trace st)
                            MAX_PASSWORD_LEN = None),
              exists r st' new0,
                update_hw_device_encryption_key oldpw (Some new) mode st
                  = Some (r, st') /\
                heap st' = heap st ++ new0 /\
                Forall (fun b => freed_clean b = true) new0) as Hnoold.
    { intros H.
      destruct (update_without_old_copy oldpw new mode st junk1 E Hm1 H)
        as (st' & ev & Hrun & _ & _ & _ & _ & Hh).
      exists (-1), st', [Block (replicate MAX_PASSWORD_LEN NUL) false].
      split; [exact Hrun|]. split; [exact Hh|]. repeat constructor; apply Hz. }
    destruct oldpw as [old|]; [|apply Hnoold; intros old [=]].
    destruct (w_malloc W
                (EvMalloc MAX_PASSWORD_LEN (Some (length (heap st)))
                   :: trace st) MAX_PASSWORD_LEN) as [junk2|] eqn:Hm2;
      [|apply Hnoold; intros; reflexivity].
    destruct (update_hw_device_encryption_key_run old new mode st junk1 junk2
                E Hm1 Hm2 Hc)
      as (storage & ice_ev & r & st3 & load_ev & _ & _ & _ & _ & Hrun).
    eexists r, _, [_; _]. split; [exact Hrun|].
    split; [reflexivity|]. repeat constructor; apply Hz.
  - destruct (clear_hw_device_encryption_key_run st Hc)
      as (storage & ice_ev & r & st' & load_ev & _ & _ & _ & Hop & Hrun).
    destruct Hop as (_ & Hh & _). rewrite heap_logs in Hh.
    exists r, st', []. split; [exact Hrun|].
    split; [now rewrite app_nil_r | constructor].
  - destruct (is_ice_enabled_run st) as (r & ev & Hrun & _).
    exists r, (logs ev st), []. split; [exact Hrun|].
    rewrite heap_logs. split; [now rewrite app_nil_r | constructor].
  - unfold should_use_keymaster, get_keymaster_version, bind,
      hw_get_module_by_class, ret. cbn [fst snd].
    destruct (negb _), (_ =? KEYMASTER_MODULE_API_VERSION_0_3);
      eexists _, _, []; (split; [reflexivity|]); cbn [heap log];
      (split; [now rewrite app_nil_r | constructor]).
Qed.

(** X13: from a state where the flag and the function pointers agree,
    every exported call returns: none calls through a null function
    pointer, writes outside a live buffer, or frees a block twice.  The
    call leaves every block that existed before as it was, and each
    block it adds to the heap is either still allocated or zero. *)
Theorem X13_exported_calls_are_memory_safe c st :
  library_consistent st = true ->
  exists r st' new,
    run_api c st = Some (r, st') /\
    heap st' = heap st ++ new /\
    Forall (fun b => freed_clean b = true) new.
Proof. exact (run_api_returns c st). Qed.

(** X14: in every state a process can reach, every freed block holds
    zero bytes only: a copy of a password is never freed before it is
    cleared. *)
Theorem X14_freed_blocks_are_zero st :
  reachable st ->
  Forall (fun b => freed_clean b = true) (heap st).
Proof.
  induction 1 as [|c st r st' Hreach IH Hrun]; [constructor|].
  destruct (run_api_returns c st (reachable_consistent st Hreach))
    as (r' & st'' & new & Hrun' & Hh & Hnew).
  rewrite Hrun in Hrun'. injection Hrun' as _ <-.
  rewrite Hh. apply Forall_app. now split.
Qed.

Lemma is_qseecom_up_loop_trace_only n : forall st1 st2,
  trace st1 = trace st2 ->
  exists r ev,
    is_qseecom_up_loop n st1 = Some (r, logs ev st1) /\
    is_qseecom_up_loop n st2 = Some (r, logs ev st2).
Proof.
  induction n as [|n IH]; intros st1 st2 Ht.
  - exists 0, []. split; reflexivity.
  - cbn [is_qseecom_up_loop]. unfold bind at 1 3.
    unfold property_get at 1 2. rewrite <- Ht.
    set (v := match w_property W (trace st1) "sys.keymaster.loaded" with
              | Some v => v
              | None => ""
              end).
    cbn [snd].
    destruct (strncmp v "true" PROPERTY_VALUE_MAX =? 0).
    + exists 1, [EvPropertyGet "sys.keymaster.loaded" v]. split; reflexivity.
    + unfold bind at 1 2. unfold usleep, modify.
      destruct (IH (log (EvUsleep 100000)
                      (log (EvPropertyGet "sys.keymaster.loaded" v) st1))
                   (log (EvUsleep 100000)
                      (log (EvPropertyGet "sys.keymaster.loaded" v) st2)))
        as (r & ev & H1 & H2); [cbn [trace log]; now rewrite Ht|].
      exists r, (ev ++ [EvUsleep 100000;
                        EvPropertyGet "sys.keymaster.loaded" v]).
      rewrite !logs_app. now split.
Qed.

(** Two runs that end in states with the same trace and library fields. *)
Local Ltac same_leaf Ht E1 E2 E3 E4 :=
  unfold modify;
  cbn [loaded_library trace log set_dl_pending set_qseecom_create_key
       set_qseecom_update_key set_qseecom_wipe_key set_loaded_library
       dl_pending];
  rewrite ?E1;
  eexists _, _, _; split; [reflexivity|]; split; [reflexivity|];
  cbn [loaded_library trace log set_dl_pending set_qseecom_create_key
       set_qseecom_update_key set_qseecom_wipe_key set_loaded_library
       qseecom_create_key qseecom_update_key qseecom_wipe_key];
  rewrite ?Ht;
  split; [reflexivity|]; unfold same_library;
  cbn [loaded_library trace log set_dl_pending set_qseecom_create_key
       set_qseecom_update_key set_qseecom_wipe_key set_loaded_library
       qseecom_create_key qseecom_update_key qseecom_wipe_key];
  repeat split; first [assumption | reflexivity].

(** X15: an error message left in [dlerror] by earlier code does not
    influence [load_qseecom_library]: started with or without such a
    message it performs the same events, returns the same flag and
    leaves the same function pointers (the message is cleared before the
    first symbol is looked up). *)
Theorem X15_stale_dlerror_is_ignored st stale :
  exists r st1 st2,
    load_qseecom_library st = Some (r, st1) /\
    load_qseecom_library (set_dl_pending stale st) = Some (r, st2) /\
    trace st1 = trace st2 /\
    same_library st1 st2.
Proof.
  unfold load_qseecom_library, bind, get.
  cbn [loaded_library set_dl_pending].
  destruct (negb (loaded_library st =? 0)).
  { eexists _, _, _. split; [reflexivity|]. split; [reflexivity|].
    split; [reflexivity | repeat split]. }
  destruct (is_qseecom_up_loop_trace_only CRYPTFS_HW_UP_CHECK_COUNT
              st (set_dl_pending stale st) eq_refl) as (up & ev & H1 & H2).
  fold is_qseecom_up in H1, H2. rewrite H1, H2.
  destruct (up =? 0).
  { eexists _, _, _. split; [reflexivity|]. split; [reflexivity|].
    rewrite !trace_logs. split; [reflexivity|].
    eapply same_library_trans; [|apply same_library_logs].
    eapply same_library_trans;
      [|apply (same_library_refl (set_dl_pending stale st))].
    destruct (same_library_logs ev st) as (E1 & E2 & E3 & E4).
    repeat split; cbn [loaded_library qseecom_create_key qseecom_update_key
                       qseecom_wipe_key set_dl_pending]; congruence. }
  assert (trace (logs ev (set_dl_pending stale st)) = trace (logs ev st)) as Ht
    by (now rewrite !trace_logs).
  assert (same_library (logs ev st) (logs ev (set_dl_pending stale st))) as Hs.
  { destruct (same_library_logs ev st) as (E1 & E2 & E3 & E4).
    destruct (same_library_logs ev (set_dl_pending stale st))
      as (F1 & F2 & F3 & F4).
    cbn [loaded_library qseecom_create_key qseecom_update_key
         qseecom_wipe_key set_dl_pending] in F1, F2, F3, F4.
    repeat split; congruence. }
  set (s1 := logs ev st) in *.
  set (s2 := logs ev (set_dl_pending stale st)) in *.
  clearbody s1 s2. destruct Hs as (E1 & E2 & E3 & E4).
  unfold dlopen, dlerror, dlsym, modify, dlclose, ret, fault.
  cbn [trace log]. rewrite Ht.
  destruct (w_dlopen W (trace s1) QSEECOM_LIBRARY_NAME) as [h|].
  2:{ same_leaf Ht E1 E2 E3 E4. }
  cbn [trace log set_dl_pending]. rewrite Ht.
  destruct (w_dlsym W _ h "QSEECom_create_key") as [a1|m1].
  2:{ same_leaf Ht E1 E2 E3 E4. }
  cbn [trace log set_dl_pending set_qseecom_create_key dl_pending].
  rewrite Ht.
  destruct (w_dlsym W _ h "QSEECom_update_key_user_info") as [a2|m2].
  2:{ same_leaf Ht E1 E2 E3 E4. }
  cbn [trace log set_dl_pending set_qseecom_create_key
       set_qseecom_update_key dl_pending].
  rewrite Ht.
  destruct (w_dlsym W _ h "QSEECom_wipe_key") as [a3|m3].
  2:{ same_leaf Ht E1 E2 E3 E4. }
  same_leaf Ht E1 E2 E3 E4.
Qed.

End Gateway.

(** ** The program run in the two concrete worlds *)

(** C1: the zeroing invariant fails for
    [update_hw_device_encryption_key("a", NULL, "aes-xts")].  The copy
    of the old password is allocated, but with no new password the
    function returns before the code that clears and frees the buffers:
    after the call the block the call allocated is still live and still
    holds the byte "a". *)
Theorem C1_update_without_new_password_keeps_old_copy :
  exists st' p b,
    update_hw_device_encryption_key world_ready 92
      (Some "a") None (Some "aes-xts") initial_state = Some (-1, st') /\
    heap initial_state !! p = None /\
    heap st' !! p = Some b /\
    live b = true /\
    all_zero (data b) = false.
Proof.
  eexists _, O, _.
  split; [vm_compute; reflexivity|]. repeat split.
Qed.

(** The same call with both passwords present clears and frees both
    copies. *)
Example update_with_both_passwords_clears_both :
  exists r st',
    update_hw_device_encryption_key world_ready 92
      (Some "a") (Some "bc") (Some "aes-xts") initial_state = Some (r, st') /\
    heap st' = [Block (replicate 32 NUL) false; Block (replicate 32 NUL) false].
Proof.
  eexists _, _. split.
  - vm_compute. reflexivity.
  - vm_compute. reflexivity.
Qed.

(** In [world_never_ready] the set call polls 100 times, never reads
    "true", and gives up with -7. *)
Example set_key_in_world_never_ready :
  exists st',
    set_hw_device_encryption_key world_never_ready 92
      (Some "hunter2") (Some "aes-xts") initial_state = Some (-7, st') /\
    forallb (fun e => negb (observed_ready e)) (trace st') = true /\
    polls (trace st') = 100%nat /\
    forallb (fun e => negb (is_call e)) (trace st') = true.
Proof.
  eexists. split; [vm_compute; reflexivity|].
  split; [vm_compute; reflexivity|].
  split; vm_compute; reflexivity.
Qed.

(** In [world_ready] the first wipe waits and loads the library; the
    second finds the flag set and goes straight to the call. *)
Example second_clear_skips_wait_and_resolution :
  exists r1 st1 r2 st2,
    clear_hw_device_encryption_key world_ready 92 initial_state
      = Some (r1, st1) /\
    clear_hw_device_encryption_key world_ready 92 st1 = Some (r2, st2) /\
    loaded_library st1 = 1 /\
    loaded_library st2 = 1 /\
    forallb (fun e => negb (is_load_step e))
      (take (length (trace st2) - length (trace st1)) (trace st2)) = true.
Proof.
  eexists _, _, _, _.
  split; [vm_compute; reflexivity|].
  split; [vm_compute; reflexivity|].
  split; [reflexivity|]. split; [reflexivity|].
  vm_compute. reflexivity.
Qed.

Lemma C2_witness :
  c_str "aes-xts" = "aes-xts" /\
  w_malloc world_never_ready (trace initial_state) MAX_PASSWORD_LEN
    = Some (fun _ => "x"%char) /\
  loaded_library initial_state = 0 /\
  (4 < 92)%nat /\
  exists r st' ev,
    set_hw_device_encryption_key world_never_ready 92
      (Some "hunter2") (Some "aes-xts") initial_state = Some (r, st') /\
    trace st' = ev ++ trace initial_state /\
    (never_ready ev -> r = -7 /\ no_call ev /\ polls ev = 100%nat).
Proof.
  split; [reflexivity|]. split; [reflexivity|]. split; [reflexivity|].
  split; [lia|].
  apply (C2_set_key_gives_up_when_never_ready world_never_ready 92
           "hunter2" "aes-xts" initial_state (fun _ => "x"%char));
    [reflexivity | reflexivity | reflexivity | lia].
Defined.

Lemma C3_witness :
  reachable world_ready 92 3 "keystore" initial_state /\
  read_bufs (heap initial_state) (op_bufs (WipeKey 1)) = Some [] /\
  library_consistent initial_state = true /\
  (exists st1 ev,
     load_qseecom_library world_ready 92 initial_state
       = Some (loaded_library st1, st1) /\
     trace st1 = ev ++ trace initial_state /\
     library_consistent st1 = true /\
     (loaded_library initial_state <> 0 -> st1 = initial_state) /\
     (loaded_library initial_state = 0 -> loaded_library st1 <> 0 ->
      loaded_library st1 = 1 /\ resolved_in_order ev st1)) /\
  (exists r st' ev,
     run_op world_ready 92 (WipeKey 1) initial_state = Some (r, st') /\
     trace st' = ev ++ trace initial_state /\
     (loaded_library initial_state <> 0 ->
      same_library initial_state st' /\ no_load_step ev) /\
     (loaded_library st' = 0 -> r = op_sentinel (WipeKey 1) /\ no_call ev)).
Proof.
  split; [apply reachable_start|]. split; [reflexivity|].
  destruct (C3_loaded_flag_discipline world_ready 92 3 "keystore"
              initial_state (WipeKey 1) [])
    as (Hc & _ & Hload & Hop);
    [apply reachable_start | reflexivity |].
  split; [exact Hc|]. split; [exact Hload | exact Hop].
Defined.

Lemma C6_witness :
  (forall s, Some "aes-256-cbc" = Some s -> c_str s <> "aes-xts") /\
  set_hw_device_encryption_key world_ready 92
    (Some "hunter2") (Some "aes-256-cbc") initial_state
    = Some (-1, initial_state) /\
  update_hw_device_encryption_key world_ready 92
    (Some "old") (Some "hunter2") (Some "aes-256-cbc") initial_state
    = Some (-1, initial_state).
Proof.
  assert (forall s, Some "aes-256-cbc" = Some s -> c_str s <> "aes-xts") as H.
  { intros s [= <-]. vm_compute. discriminate. }
  split; [exact H|].
  apply (C6_other_modes_are_no_ops world_ready 92 (Some "hunter2")
           (Some "old") (Some "hunter2") (Some "aes-256-cbc") initial_state H).
Defined.

Lemma C7_witness :
  library_consistent initial_state = true /\
  exists storage_type ice_ev r st' ev,
    is_ice_enabled world_ready initial_state
      = Some (storage_type, logs ice_ev initial_state) /\
    clear_hw_device_encryption_key world_ready 92 initial_state
      = Some (r, st') /\
    trace st' = ev ++ trace initial_state /\
    (loaded_library st' <> 0 ->
     exists wipe before,
       qseecom_wipe_key st' = Some wipe /\
       trace st' = EvCall wipe (backend_usage storage_type) [] r :: before /\
       r = w_call world_ready before wipe (backend_usage storage_type) []) /\
    (loaded_library st' = 0 -> r = -8 /\ no_call ev).
Proof.
  split; [reflexivity|].
  apply (C7_clear_key_forwards_to_wipe world_ready 92 initial_state).
  reflexivity.
Defined.

Lemma C8_witness :
  is_hw_disk_encryption (Some "aes-xts") <> 0 /\
  w_malloc world_ready (trace initial_state) MAX_PASSWORD_LEN
    = Some (fun _ => "x"%char) /\
  library_consistent initial_state = true /\
  exists p st1 buf,
    get_tmp_passwd world_ready (Some "hunter2") initial_state
      = Some (Some p, st1) /\
    heap st1 !! p = Some (Block buf true) /\
    padded_copy "hunter2" buf /\
    exists r st' ev,
      set_hw_device_encryption_key world_ready 92
        (Some "hunter2") (Some "aes-xts") initial_state = Some (r, st') /\
      trace st' = ev ++ trace initial_state /\
      calls_carry [buf] ev.
Proof.
  assert (is_hw_disk_encryption (Some "aes-xts") <> 0) as H
    by (vm_compute; discriminate).
  split; [exact H|]. split; [reflexivity|]. split; [reflexivity|].
  apply (C8_password_buffer world_ready 92 "hunter2" (Some "aes-xts")
           initial_state (fun _ => "x"%char) H);
    reflexivity.
Defined.

(** ** The further properties at concrete inputs *)

Lemma X1_witness :
  (4 < 92)%nat /\
  exists r ev,
    is_qseecom_up world_ready 92 initial_state
      = Some (r, logs ev initial_state) /\
    (1 <= polls ev <= 100)%nat /\
    ((r = 1 /\
      slept ev = 100000 * (Z.of_nat (polls ev) - 1) /\
      exists v rest,
        ev = EvPropertyGet "sys.keymaster.loaded" v :: rest /\
        c_str v = "true" /\ never_ready rest) \/
     (r = 0 /\ polls ev = 100%nat /\ slept ev = 10000000 /\ never_ready ev)).
Proof.
  split; [lia|].
  apply (X1_is_qseecom_up_wait world_ready 92 initial_state). lia.
Defined.

Lemma X3_witness :
  let st := State 0 None None None None
              [Block ["a"; "b"; "c"]%char true] [] in
  heap st !! O = Some (Block ["a"; "b"; "c"]%char true) /\
  (2 <= length ["a"; "b"; "c"]%char)%nat /\
  secure_memset O 0 2 st =
    Some (O, set_heap [Block [NUL; NUL; "c"%char] true] st).
Proof.
  intros st. split; [reflexivity|]. split; [cbn; lia|].
  apply (X3_secure_memset_writes_prefix st O 0 2 ["a"; "b"; "c"]%char);
    [reflexivity | cbn; lia].
Defined.

Lemma X4_witness :
  loaded_library initial_state = 0 /\
  exists st' ev,
    load_qseecom_library world_ready 92 initial_state
      = Some (loaded_library st', st') /\
    trace st' = ev ++ trace initial_state /\
    (1 <= polls ev)%nat /\
    (length (opened ev) <= 1)%nat /\
    (loaded_library st' = 0 -> closed ev = opened ev) /\
    (loaded_library st' <> 0 -> closed ev = [] /\ length (opened ev) = 1%nat).
Proof.
  split; [reflexivity|].
  apply (X4_failed_load_releases_handle world_ready 92 initial_state).
  reflexivity.
Defined.

Lemma X5_witness :
  is_hw_disk_encryption (Some "aes-xts") <> 0 /\
  w_malloc world_ready (trace initial_state) MAX_PASSWORD_LEN
    = Some (fun _ => "x"%char) /\
  library_consistent initial_state = true /\
  exists r st',
    set_hw_device_encryption_key world_ready 92
      (Some "hunter2") (Some "aes-xts") initial_state = Some (r, st') /\
    (loaded_library st' = 0 -> r = -7).
Proof.
  assert (is_hw_disk_encryption (Some "aes-xts") <> 0) as H
    by (vm_compute; discriminate).
  split; [exact H|]. split; [reflexivity|]. split; [reflexivity|].
  destruct (X5_set_key_returns_create_status world_ready 92 "hunter2"
              (Some "aes-xts") initial_state (fun _ => "x"%char) H
              eq_refl eq_refl)
    as (storage & ice_ev & r & st' & _ & Hrun & _ & Hz).
  exists r, st'. split; [exact Hrun | exact Hz].
Defined.

Lemma X6_witness :
  is_hw_disk_encryption (Some "aes-xts") <> 0 /\
  w_malloc world_never_ready (trace initial_state) MAX_PASSWORD_LEN
    = Some (fun _ => "x"%char) /\
  library_consistent initial_state = true /\
  exists r st',
    set_hw_device_encryption_key world_never_ready 92
      (Some "hunter2") (Some "aes-xts") initial_state = Some (r, st') /\
    heap st' = heap initial_state
                 ++ [Block (replicate MAX_PASSWORD_LEN NUL) false].
Proof.
  assert (is_hw_disk_encryption (Some "aes-xts") <> 0) as H
    by (vm_compute; discriminate).
  split; [exact H|]. split; [reflexivity|]. split; [reflexivity|].
  apply (X6_set_key_clears_and_frees world_never_ready 92 "hunter2"
           (Some "aes-xts") initial_state (fun _ => "x"%char) H);
    reflexivity.
Defined.

Lemma X7_witness :
  is_hw_disk_encryption (Some "aes-xts") <> 0 /\
  w_malloc world_ready (trace initial_state) MAX_PASSWORD_LEN
    = Some (fun _ => "x"%char) /\
  w_malloc world_ready
    (EvMalloc MAX_PASSWORD_LEN (Some (length (heap initial_state)))
       :: trace initial_state) MAX_PASSWORD_LEN
    = Some (fun _ => "x"%char) /\
  library_consistent initial_state = true /\
  exists r st',
    update_hw_device_encryption_key world_ready 92
      (Some "old") (Some "new") (Some "aes-xts") initial_state
      = Some (r, st') /\
    (loaded_library st' = 0 -> r = -9).
Proof.
  assert (is_hw_disk_encryption (Some "aes-xts") <> 0) as H
    by (vm_compute; discriminate).
  split; [exact H|]. split; [reflexivity|]. split; [reflexivity|].
  split; [reflexivity|].
  destruct (X7_update_key_returns_update_status world_ready 92 "old" "new"
              (Some "aes-xts") initial_state
              (fun _ => "x"%char) (fun _ => "x"%char) H
              eq_refl eq_refl eq_refl)
    as (storage & ice_ev & r & st' & _ & Hrun & _ & Hz).
  exists r, st'. split; [exact Hrun | exact Hz].
Defined.

Lemma X8_witness :
  is_hw_disk_encryption (Some "aes-xts") <> 0 /\
  w_malloc world_ready (trace initial_state) MAX_PASSWORD_LEN
    = Some (fun _ => "x"%char) /\
  w_malloc world_ready
    (EvMalloc MAX_PASSWORD_LEN (Some (length (heap initial_state)))
       :: trace initial_state) MAX_PASSWORD_LEN
    = Some (fun _ => "x"%char) /\
  library_consistent initial_state = true /\
  exists r st',
    update_hw_device_encryption_key world_ready 92
      (Some "old") (Some "new") (Some "aes-xts") initial_state
      = Some (r, st') /\
    heap st' = heap initial_state
                 ++ [Block (replicate MAX_PASSWORD_LEN NUL) false;
                     Block (replicate MAX_PASSWORD_LEN NUL) false].
Proof.
  assert (is_hw_disk_encryption (Some "aes-xts") <> 0) as H
    by (vm_compute; discriminate).
  split; [exact H|]. split; [reflexivity|]. split; [reflexivity|].
  split; [reflexivity|].
  apply (X8_update_key_clears_and_frees_both world_ready 92 "old" "new"
           (Some "aes-xts") initial_state
           (fun _ => "x"%char) (fun _ => "x"%char) H);
    reflexivity.
Defined.

Lemma X9_witness :
  is_hw_disk_encryption (Some "aes-xts") <> 0 /\
  w_malloc world_ready (trace initial_state) MAX_PASSWORD_LEN
    = Some (fun _ => "x"%char) /\
  exists st' ev,
    update_hw_device_encryption_key world_ready 92
      None (Some "new") (Some "aes-xts") initial_state = Some (-1, st') /\
    trace st' = ev ++ trace initial_state /\
    no_call ev /\ no_load_step ev /\
    same_library initial_state st' /\
    heap st' = heap initial_state
                 ++ [Block (replicate MAX_PASSWORD_LEN NUL) false].
Proof.
  assert (is_hw_disk_encryption (Some "aes-xts") <> 0) as H
    by (vm_compute; discriminate).
  split; [exact H|]. split; [reflexivity|].
  apply (X9_update_without_old_password_is_skipped world_ready 92 None "new"
           (Some "aes-xts") initial_state (fun _ => "x"%char) H eq_refl).
  intros old E. discriminate E.
Defined.

Lemma X10_witness :
  (forall pw, @None string = Some pw ->
     w_malloc world_ready (trace initial_state) MAX_PASSWORD_LEN = None) /\
  (exists st' ev,
     update_hw_device_encryption_key world_ready 92
       (Some "old") None (Some "aes-xts") initial_state = Some (-1, st') /\
     trace st' = ev ++ trace initial_state /\
     no_call ev /\ no_load_step ev /\ same_library initial_state st').
Proof.
  assert (forall pw, @None string = Some pw ->
            w_malloc world_ready (trace initial_state) MAX_PASSWORD_LEN = None)
    as H by (intros pw E; discriminate E).
  split; [exact H|].
  exact (proj2 (X10_no_new_copy_no_library world_ready 92 None (Some "old")
                  (Some "aes-xts") initial_state H)).
Defined.

Lemma X11_witness :
  w_malloc world_ready (trace initial_state) MAX_PASSWORD_LEN
    = Some (fun _ => "x"%char) /\
  (MAX_PASSWORD_LEN <= strlen "0123456789abcdef0123456789abcdefXYZ")%nat /\
  exists p st' buf,
    get_tmp_passwd world_ready
      (Some "0123456789abcdef0123456789abcdefXYZ") initial_state
      = Some (Some p, st') /\
    heap st' !! p = Some (Block buf true) /\
    buf = take MAX_PASSWORD_LEN
            (list_ascii_of_string
               (c_str "0123456789abcdef0123456789abcdefXYZ")) /\
    Forall (fun c => c <> NUL) buf.
Proof.
  assert (MAX_PASSWORD_LEN <= strlen "0123456789abcdef0123456789abcdefXYZ")%nat
    as H by (vm_compute; lia).
  split; [reflexivity|]. split; [exact H|].
  apply (X11_long_password_buffer_has_no_terminator world_ready
           "0123456789abcdef0123456789abcdefXYZ" initial_state
           (fun _ => "x"%char) eq_refl H).
Defined.

Lemma X13_witness :
  library_consistent initial_state = true /\
  exists r st' new,
    run_api world_ready 92 3 "keystore"
      (ApiUpdateKey (Some "old") (Some "new") (Some "aes-xts")) initial_state
      = Some (r, st') /\
    heap st' = heap initial_state ++ new /\
    Forall (fun b => freed_clean b = true) new.
Proof.
  split; [reflexivity|].
  apply (X13_exported_calls_are_memory_safe world_ready 92 3 "keystore").
  reflexivity.
Defined.

Lemma X14_witness :
  exists st',
    reachable world_ready 92 3 "keystore" st' /\
    length (heap st') = 1%nat /\
    Forall (fun b => freed_clean b = true) (heap st').
Proof.
  let v := eval vm_compute in
        (run_api world_ready 92 3 "keystore"
           (ApiSetKey (Some "hunter2") (Some "aes-xts")) initial_state) in
  match v with
  | Some (?r, ?s) =>
      exists s;
      assert (reachable world_ready 92 3 "keystore" s) as R
        by (apply (reachable_call world_ready 92 3 "keystore"
                     (ApiSetKey (Some "hunter2") (Some "aes-xts"))
                     initial_state r s (reachable_start _ _ _ _));
            vm_compute; reflexivity)
  end.
  split; [exact R|]. split; [reflexivity|].
  apply (X14_freed_blocks_are_zero world_ready 92 3 "keystore" _ R).
Defined.
